(** * timing.js: the Navigation Timing interval calculator

    A shallow embedding of [src/timing.js] and the properties of its
    natural-language specification.

    JavaScript numbers are IEEE 754 binary64 values; they are modelled by
    Rocq's primitive [float], so that subtraction, division by 1000 and
    [toFixed] compute bit for bit what an engine computes.  The browser
    (window.performance, document.readyState, the console, the clocks) is a
    [Host] record the functions read; what the code does to the outside
    (console output, clock readings, exceptions) is threaded through a small
    state-and-exception monad. *)

From Stdlib Require Import ZArith NArith List String Ascii Bool Lia.
From Stdlib Require Import DecimalString DecimalN Floats.
Import ListNotations.

Set Warnings "-inexact-float".

Local Open Scope string_scope.

(* ===================================================================== *)
(** * The fragment of JavaScript the program uses *)
(* ===================================================================== *)

Module JS.

(** The values the program handles as data: [undefined] and numbers.  A
    property the host object lacks reads as [Undefined]. *)
Inductive value : Type :=
| Undefined
| Number (x : float).

(** ToNumber: [undefined] converts to NaN. *)
Definition to_number (v : value) : float :=
  match v with
  | Undefined => nan
  | Number x => x
  end.

(** ToBoolean: [undefined], +0, -0 and NaN are falsy, every other number
    is truthy. *)
Definition to_boolean (v : value) : bool :=
  match v with
  | Undefined => false
  | Number x => negb (is_zero x || is_nan x)
  end.

(** [a && b]: the left operand when it is falsy, the right one otherwise. *)
Definition and_ (a b : value) : value :=
  if to_boolean a then b else a.

(** [a === b]: IEEE equality on numbers (NaN differs from itself, +0
    equals -0); values of different types differ. *)
Definition strict_equal (a b : value) : bool :=
  match a, b with
  | Undefined, Undefined => true
  | Number x, Number y => PrimFloat.eqb x y
  | _, _ => false
  end.

(** [a !== b] *)
Definition strict_not_equal (a b : value) : bool := negb (strict_equal a b).

(** [a - b] and [a / b] on values: both operands go through ToNumber. *)
Definition sub (a b : value) : value :=
  Number (PrimFloat.sub (to_number a) (to_number b)).

Definition div (a b : value) : value :=
  Number (PrimFloat.div (to_number a) (to_number b)).

(** ** Number.prototype.toFixed *)

(** The real number a finite nonzero binary64 value denotes is
    [m * 2^e] up to sign; [scaled_nearest m e f] is the integer [n] for
    which [n / 10^f - m * 2^e] is as close to zero as possible, the larger
    [n] when two are equally close. *)
Definition scaled_nearest (m : positive) (e : Z) (f : nat) : N :=
  let num := (Z.pos m * 10 ^ Z.of_nat f)%Z in
  match e with
  | Z0 => Z.to_N num
  | Zpos p => Z.to_N (num * 2 ^ Z.pos p)
  | Zneg p => Z.to_N ((2 * num + 2 ^ Z.pos p) / (2 * 2 ^ Z.pos p))
  end.

(** [m * 2^e >= 10^21] *)
Definition at_least_1e21 (m : positive) (e : Z) : bool :=
  match e with
  | Z0 => (10 ^ 21 <=? Z.pos m)%Z
  | Zpos p => (10 ^ 21 <=? Z.pos m * 2 ^ Z.pos p)%Z
  | Zneg p => (10 ^ 21 * 2 ^ Z.pos p <=? Z.pos m)%Z
  end.

(** The decimal representation of a non-negative integer, "0" for 0. *)
Definition decimal (n : N) : string := NilZero.string_of_uint (N.to_uint n).

Fixpoint zeros (k : nat) : string :=
  match k with
  | O => ""
  | S k' => String "0" (zeros k')
  end.

(** Steps 9-10 of toFixed on the integer [n]: pad the digits of [n] on the
    left with zeros to at least [f + 1] characters and put the decimal point
    before the last [f] of them. *)
Definition fixed_digits (n : N) (f : nat) : string :=
  let m := decimal n in
  match f with
  | O => m
  | S _ =>
      let k := String.length m in
      let m := if Nat.leb k f then zeros (f + 1 - k) ++ m else m in
      let k := String.length m in
      substring 0 (k - f) m ++ "." ++ substring (k - f) f m
  end.

(** *** Number::toString from 1e21 on

    There the number is an integer [m * 2^e] with [e > 0], and its string
    is [d.ddd...e+N]: the digits [s] are the fewest that read back as the
    number, the closest to it among those, as every current engine prints
    them. *)

(** The decimal [d] rounds to [m * 2^e] under round-to-nearest-even: it lies
    within half a gap of it, the ends counting when [m] is even.  Below a
    power of two the gap halves. *)
Definition reads_back (m : positive) (e : Z) (d : Z) : bool :=
  let x := (Z.pos m * 2 ^ e)%Z in
  let up := (2 ^ (e - 1))%Z in
  let down := (if Pos.eqb m (2 ^ 52) then 2 ^ (e - 2) else 2 ^ (e - 1))%Z in
  if Z.even (Z.pos m)
  then ((x - down <=? d) && (d <=? x + up))%Z
  else ((x - down <? d) && (d <? x + up))%Z.

(** The candidates [s * 10^(n-k)] with [k] digits around [x], for the two
    magnitudes [n] that [x] can round to. *)
Definition candidates (x : Z) (digits : nat) (k : nat) : list (Z * nat) :=
  flat_map
    (fun n => let q := (x / 10 ^ Z.of_nat (n - k))%Z in [(q, n); ((q + 1)%Z, n)])
    [digits; S digits].

Definition denotes (k : nat) (c : Z * nat) : Z :=
  (fst c * 10 ^ Z.of_nat (snd c - k))%Z.

Definition admissible (m : positive) (e : Z) (k : nat) (c : Z * nat) : bool :=
  ((10 ^ Z.of_nat (k - 1) <=? fst c) && (fst c <? 10 ^ Z.of_nat k))%Z
  && reads_back m e (denotes k c).

(** The closer of two candidates to [x], the even one when equally close. *)
Definition closer (x : Z) (k : nat) (c1 c2 : Z * nat) : Z * nat :=
  let d1 := Z.abs (denotes k c1 - x) in
  let d2 := Z.abs (denotes k c2 - x) in
  if (d1 <? d2)%Z then c1
  else if (d2 <? d1)%Z then c2
  else if Z.even (fst c1) then c1 else c2.

Definition closest (x : Z) (k : nat) (cs : list (Z * nat)) : option (Z * nat) :=
  match cs with
  | [] => None
  | c :: rest => Some (fold_left (closer x k) rest c)
  end.

Fixpoint shortest (m : positive) (e : Z) (digits : nat) (ks : list nat)
  : option (nat * (Z * nat)) :=
  match ks with
  | [] => None
  | k :: ks' =>
      match closest (Z.pos m * 2 ^ e) k
              (filter (admissible m e k) (candidates (Z.pos m * 2 ^ e) digits k)) with
      | Some c => Some (k, c)
      | None => shortest m e digits ks'
      end
  end.

Definition exponential (m : positive) (e : Z) : string :=
  let x := (Z.pos m * 2 ^ e)%Z in
  let digits := String.length (decimal (Z.to_N x)) in
  let '(k, (s, n)) :=
    match shortest m e digits (seq 1 17) with
    | Some r => r
    | None => (17, ((x / 10 ^ Z.of_nat (digits - 17))%Z, digits))
    end in
  let ds := decimal (Z.to_N s) in
  substring 0 1 ds
  ++ (if Nat.eqb k 1 then "" else "." ++ substring 1 (k - 1) ds)
  ++ "e+" ++ decimal (N.of_nat (n - 1)).

(** [x.toFixed(f)]: NaN and the infinities print by name, a number from
    1e21 on prints as Number::toString has it, any other as the nearest
    multiple of [10^-f]. *)
Definition toFixed (f : nat) (x : float) : string :=
  match Prim2SF x with
  | S754_nan => "NaN"
  | S754_infinity false => "Infinity"
  | S754_infinity true => "-Infinity"
  | S754_zero _ => fixed_digits 0 f
  | S754_finite sign m e =>
      (if sign then "-" else "") ++
      (if at_least_1e21 m e then exponential m e
       else fixed_digits (scaled_nearest m e f) f)
  end.

(** ** Effects: console output, clock readings, exceptions *)

(** What a run has done to the outside so far: the messages written with
    [console.warn], oldest first, and how many times a clock was read. *)
Record World : Type := mkWorld {
  console_output : list string;
  clock_reads : nat
}.

Inductive exn : Type :=
| TypeError (message : string)
| Raised (v : value).

Inductive outcome (A : Type) : Type :=
| Return (a : A) (w : World)
| Throw (e : exn) (w : World).
Arguments Return {A} a w.
Arguments Throw {A} e w.

Definition M (A : Type) : Type := World -> outcome A.

Definition ret {A} (a : A) : M A := fun w => Return a w.

Definition bind {A B} (m : M A) (k : A -> M B) : M B :=
  fun w =>
    match m w with
    | Return a w' => k a w'
    | Throw e w' => Throw e w'
    end.

Definition throw {A} (e : exn) : M A := fun w => Throw e w.

(** [m] runs to completion from every state and hands back [a]. *)
Definition returns {A} (m : M A) (a : A) : Prop :=
  forall w, exists w', m w = Return a w'.

(** [m] never lets an exception out. *)
Definition never_throws {A} (m : M A) : Prop :=
  forall w, exists a w', m w = Return a w'.

End JS.

Declare Scope js_scope.
Delimit Scope js_scope with js.
Notation "x <- m ;; k" := (JS.bind m (fun x => k))
  (at level 61, m at next level, right associativity) : js_scope.
Notation "m ;;; k" := (JS.bind m (fun _ => k))
  (at level 61, right associativity) : js_scope.

(* ===================================================================== *)
(** * The host environment *)
(* ===================================================================== *)

Module Host.

(** A clock is the sequence of its successive readings. *)
Definition Clock : Type := nat -> float.

(** window.performance.navigation *)
Record PerformanceNavigation : Type := mkNavigation {
  navigation_type : JS.value;
  navigation_redirectCount : JS.value
}.

(** window.performance: each member may be missing.  [performance_timing]
    is the mark table, read by key. *)
Record Performance : Type := mkPerformance {
  performance_timing : option (string -> JS.value);
  performance_navigation : option PerformanceNavigation;
  performance_now : option Clock;
  performance_webkitNow : option Clock
}.

Inductive Console : Type :=
| NoConsole          (* window has no own property 'console' *)
| ConsoleWithoutWarn (* console.warn is falsy *)
| ConsoleWithWarn.   (* console.warn is the logging function *)

Record t : Type := mkHost {
  window_performance : option Performance;
  window_console : Console;
  document_readyState : string;
  Date_now : Clock
}.

End Host.

(* ===================================================================== *)
(** * timing.js *)
(* ===================================================================== *)

Module Timing.

Import JS Host.
Local Open Scope js_scope.

(** A [switch] whose clauses have no [break]: control enters at the first
    clause whose label is strictly equal to the discriminant and runs every
    clause body from there to the end. *)
Fixpoint run_clauses {S : Type} (bodies : list (value * (S -> S))) (s : S) : S :=
  match bodies with
  | [] => s
  | (_, body) :: rest => run_clauses rest (body s)
  end.

Fixpoint switch_no_break {S : Type} (discriminant : value)
    (clauses : list (value * (S -> S))) (s : S) : S :=
  match clauses with
  | [] => s
  | (label, body) :: rest =>
      if strict_equal discriminant label
      then run_clauses clauses s
      else switch_no_break discriminant rest s
  end.

(** Who a block is called on. *)
Inductive binding (Arg : Type) : Type :=
| TheWindow
| Bound (a : Arg).
Arguments TheWindow {Arg}.
Arguments Bound {Arg} a.

(** What the module object holds as plain values. *)
Record statics : Type := mkStatics {
  now_is_native : bool;
  navigationType : option string;   (* [None] is undefined *)
  redirects : value
}.

Section WithHost.

Variable h : Host.t.

(** Lines 32-34. *)
Definition performance_implemented : bool :=
  match window_performance h with
  | Some _ => true
  | None => false
  end.

Definition timing_implemented : bool :=
  performance_implemented &&
  match window_performance h with
  | Some p => match performance_timing p with Some _ => true | None => false end
  | None => false
  end.

Definition navigation_implemented : bool :=
  performance_implemented &&
  match window_performance h with
  | Some p => match performance_navigation p with Some _ => true | None => false end
  | None => false
  end.

(** Reading a member of window.performance throws a TypeError when the
    object it is read from is undefined. *)
Definition window_performance_timing (key : string) : M value :=
  match window_performance h with
  | None => throw (TypeError "window.performance is undefined")
  | Some p =>
      match performance_timing p with
      | None => throw (TypeError "window.performance.timing is undefined")
      | Some table => ret (table key)
      end
  end.

Definition window_performance_navigation : M PerformanceNavigation :=
  match window_performance h with
  | None => throw (TypeError "window.performance is undefined")
  | Some p =>
      match performance_navigation p with
      | None => throw (TypeError "window.performance.navigation is undefined")
      | Some nav => ret nav
      end
  end.

(** Lines 36-40. *)
Definition warn (message : string) : M unit :=
  match window_console h with
  | ConsoleWithWarn =>
      fun w => Return tt (mkWorld (console_output w ++ [message]) (clock_reads w))
  | _ => ret tt
  end.

(** Lines 72-93: the clock [now] reads. *)
Inductive clock_source : Type :=
| PerformanceNow (c : Clock)
| PerformanceWebkitNow (c : Clock)
| DateNow.

Definition now_source : clock_source :=
  match window_performance h with
  | Some p =>
      match performance_now p with
      | Some c => PerformanceNow c
      | None =>
          match performance_webkitNow p with
          | Some c => PerformanceWebkitNow c
          | None => DateNow
          end
      end
  | None => DateNow
  end.

Definition read_clock (c : Clock) : M float :=
  fun w => Return (c (clock_reads w)) (mkWorld (console_output w) (S (clock_reads w))).

Definition now : M float :=
  match now_source with
  | PerformanceNow c => read_clock c
  | PerformanceWebkitNow c => read_clock c
  | DateNow => read_clock (Date_now h)
  end.

(** Lines 42-93: what evaluating the module does, in source order. *)
Definition init : M statics :=
  (if performance_implemented then
     (if negb timing_implemented
      then warn "window.performance.timing is not implement."
      else ret tt) ;;;
     (if negb navigation_implemented
      then warn "window.performance.navigation is not implement."
      else ret tt)
   else warn "window.performance is not implement.") ;;;
  navigationType <-
    (if navigation_implemented then
       nav <- window_performance_navigation ;;
       ret (switch_no_break (navigation_type nav)
              [ (Number 0,   fun _ => Some "navigation");
                (Number 1,   fun _ => Some "reload");
                (Number 2,   fun _ => Some "history");
                (Number 255, fun _ => Some "unknown") ]
              None)
     else ret None) ;;
  redirects <-
    (if navigation_implemented then
       nav <- window_performance_navigation ;;
       ret (navigation_redirectCount nav)
     else ret Undefined) ;;
  now_is_native <-
    (match now_source with
     | DateNow =>
         warn "window.performance.now is not implemented, using Date.now" ;;;
         ret false
     | _ => ret true
     end) ;;
  ret (mkStatics now_is_native navigationType redirects).

(** Lines 95-97. *)
Definition ready : bool :=
  String.eqb (document_readyState h) "complete".

(** Lines 102-115.  [rest] holds the arguments after [block]: the binding,
    when one is passed, then the arguments for the block. *)
Definition timeMS {Arg : Type} (block : binding Arg -> list Arg -> M unit)
    (rest : list Arg) : M value :=
  let args := tl rest in
  let binding := match rest with
                 | [] => TheWindow
                 | b :: _ => Bound b
                 end in
  start <- now ;;
  block binding args ;;;
  stop <- now ;;
  ret (Number (PrimFloat.sub stop start)).

(** Lines 117-119. *)
Definition time {Arg : Type} (block : binding Arg -> list Arg -> M unit)
    (rest : list Arg) : M value :=
  ms <- timeMS block rest ;;
  ret (div ms (Number 1000)).

Definition measure {Arg : Type} := @time Arg.

(** Lines 121-129. *)
Definition get (key : string) : M value :=
  if timing_implemented then
    (if negb ready
     then warn "document is not loaded yet, timing for some segments may be incorrect."
     else ret tt) ;;;
    window_performance_timing key
  else ret Undefined.

(** Lines 131-138. *)
Definition timing (start end_ : string) : M value :=
  if timing_implemented then
    t0 <- get start ;;
    t1 <- get end_ ;;
    if to_boolean (and_ t0 t1)
    then ret (div (sub t1 t0) (Number 1000))
    else ret Undefined
  else ret Undefined.

(** Lines 140-142. *)
Definition fromSameOrigin : M bool :=
  a <- get "unloadEventStart" ;;
  if strict_not_equal a (Number 0)
  then b <- get "unloadEventEnd" ;; ret (strict_not_equal b (Number 0))
  else ret false.

(** Lines 144-233: the catalog. *)
Definition real : M value := timing "navigationStart" "loadEventEnd".
Definition total : M value := timing "fetchStart" "loadEventEnd".
Definition network : M value := timing "fetchStart" "responseEnd".
Definition redirect : M value := timing "redirectEnd" "redirectStart".
Definition download : M value := timing "responseStart" "responseEnd".
Definition application : M value := timing "requestStart" "responseEnd".
Definition dns : M value := timing "domainLookupStart" "domainLookupEnd".
Definition tcp : M value := timing "connectStart" "connectEnd".
Definition ssl : M value := timing "secureConnectionStart" "connectEnd".
Definition request : M value := timing "requestStart" "responseStart".
Definition response : M value := timing "responseStart" "responseEnd".
Definition parse : M value := timing "domLoading" "domInteractive".
Definition dom : M value := timing "domLoading" "domComplete".

Definition external : M value :=
  d <- dom ;;
  p <- parse ;;
  if strict_not_equal d Undefined && strict_not_equal p Undefined
  then d' <- dom ;; p' <- parse ;; ret (sub d' p')
  else ret Undefined.

Definition load : M value := timing "loadEventStart" "loadEventEnd".
Definition domContentLoad : M value :=
  timing "domContentLoadedEventStart" "domContentLoadedEventEnd".
Definition unload : M value := timing "unloadEventStart" "unloadEventEnd".
Definition timeToFirstByte : M value := timing "fetchStart" "responseStart".
Definition timeToLastByte : M value := timing "fetchStart" "responseEnd".
Definition timeToInteractive : M value := timing "fetchStart" "domInteractive".
Definition timeToDomComplete : M value := timing "fetchStart" "domComplete".
Definition timeToDomReady : M value := timing "fetchStart" "domContentLoadedEventEnd".

(** The one-character string of a line feed. *)
Definition newline : string := String "010" "".

(** Lines 235-243. *)
Definition pp (f : M value) : M string :=
  value <- f ;;
  ret ((match value with
        | Undefined => "N/A"
        | Number x => toFixed 3 x ++ "s"
        end) ++ newline).

(** Lines 245-262. *)

Definition log : M string :=
  let output := newline in
  let output := output ++ "Timings" ++ newline in
  let output := output ++ "-----------------------------" ++ newline in
  l <- pp network ;;     let output := output ++ ("               Network " ++ l) in
  l <- pp download ;;    let output := output ++ ("              Download " ++ l) in
  l <- pp application ;; let output := output ++ ("           Application " ++ l) in
  l <- pp parse ;;       let output := output ++ ("                 Parse " ++ l) in
  l <- pp external ;;    let output := output ++ ("       External Assets " ++ l) in
  l <- pp dom ;;         let output := output ++ ("              Document " ++ l) in
  let output := output ++ newline in
  l <- pp timeToFirstByte ;;   let output := output ++ ("    Time to First Byte " ++ l) in
  l <- pp timeToInteractive ;; let output := output ++ ("   Time to Interactive " ++ l) in
  l <- pp timeToDomReady ;;    let output := output ++ ("Time to Document Ready " ++ l) in
  l <- pp total ;;             let output := output ++ ("    Total Time to Load " ++ l) in
  ret output.

(** Lines 265-308: the metrics of the module object, by public name. *)
Definition catalog : list (string * M value) :=
  [ ("real", real); ("total", total); ("network", network);
    ("redirect", redirect); ("download", download);
    ("application", application); ("dns", dns); ("tcp", tcp); ("ssl", ssl);
    ("request", request); ("response", response); ("parse", parse);
    ("external", external); ("dom", dom); ("load", load);
    ("domContentLoad", domContentLoad); ("unload", unload);
    ("timeToFirstByte", timeToFirstByte); ("ttfb", timeToFirstByte);
    ("timeToLastByte", timeToLastByte); ("ttlb", timeToLastByte);
    ("timeToInteractive", timeToInteractive); ("tti", timeToInteractive);
    ("timeToDomComplete", timeToDomComplete); ("ttdc", timeToDomComplete);
    ("timeToDomReady", timeToDomReady); ("ttdr", timeToDomReady);
    ("timeToLoad", total); ("ttl", total) ].

End WithHost.

End Timing.

(* ===================================================================== *)
(** * What a run yields, and the hosts of the scenarios *)
(* ===================================================================== *)

Module Runs.

Import JS Host Timing.

(** "Not available", for a raw mark: undefined, or a zero. *)
Definition not_available (v : value) : Prop :=
  v = Undefined \/ exists x, v = Number x /\ is_zero x = true.

Section WithHost.

Variable h : Host.t.

(** The value [get] hands back for [key]. *)
Definition mark (key : string) : value :=
  match window_performance h with
  | Some p =>
      match performance_timing p with
      | Some table => table key
      | None => Undefined
      end
  | None => Undefined
  end.

(** The state [warn] leaves. *)
Definition warned (message : string) (w : World) : World :=
  match window_console h with
  | ConsoleWithWarn => mkWorld (console_output w ++ [message]) (clock_reads w)
  | _ => w
  end.

(** The state one call of [get] leaves. *)
Definition after_get (w : World) : World :=
  if timing_implemented h && negb (ready h)
  then warned "document is not loaded yet, timing for some segments may be incorrect." w
  else w.

(** The value [timing] hands back. *)
Definition interval (start end_ : string) : value :=
  if to_boolean (and_ (mark start) (mark end_))
  then div (sub (mark end_) (mark start)) (Number 1000)
  else Undefined.

(** The value [external] hands back. *)
Definition external_value : value :=
  let d := interval "domLoading" "domComplete" in
  let p := interval "domLoading" "domInteractive" in
  if strict_not_equal d Undefined && strict_not_equal p Undefined
  then sub d p
  else Undefined.

End WithHost.

(** The line [pp] prints for a value. *)
Definition pp_line (v : value) : string :=
  (match v with
   | Undefined => "N/A"
   | Number x => toFixed 3 x ++ "s"
   end) ++ newline.

(** A mark table given by its entries; any other key is absent. *)
Fixpoint object_of (entries : list (string * float)) (key : string) : value :=
  match entries with
  | [] => Undefined
  | (k, x) :: rest => if String.eqb k key then Number x else object_of rest key
  end.

(** A browser whose window.performance has the given mark table and
    navigation record, a native clock that ticks once a millisecond, and a
    loaded document. *)
Definition browser (marks : option (string -> value))
    (nav : option PerformanceNavigation) : Host.t :=
  mkHost
    (Some (mkPerformance marks nav
             (Some (fun i => PrimFloat.of_uint63 (Uint63.of_Z (Z.of_nat i))))
             None))
    ConsoleWithWarn "complete"
    (fun i => PrimFloat.of_uint63 (Uint63.of_Z (Z.of_nat i))).

(** A host that does not implement window.performance at all. *)
Definition legacy_browser : Host.t :=
  mkHost None ConsoleWithWarn "complete"
    (fun i => PrimFloat.of_uint63 (Uint63.of_Z (Z.of_nat i))).

(** The mark table of the specification's worked scenario. *)
Definition scenario_marks : string -> value :=
  object_of
    [ ("fetchStart", 100%float); ("domainLookupStart", 110%float);
      ("domainLookupEnd", 140%float); ("connectStart", 140%float);
      ("connectEnd", 180%float); ("requestStart", 180%float);
      ("responseStart", 300%float); ("responseEnd", 350%float);
      ("domLoading", 350%float); ("domInteractive", 500%float);
      ("domComplete", 700%float); ("loadEventStart", 700%float);
      ("loadEventEnd", 720%float); ("navigationStart", 50%float) ].

(** Any host whose mark table is the scenario's. *)
Definition scenario_host (nav : option PerformanceNavigation)
    (native webkit : option Clock) (console : Console) (readyState : string)
    (date : Clock) : Host.t :=
  mkHost (Some (mkPerformance (Some scenario_marks) nav native webkit))
         console readyState date.

(** The browser of the scenario, and browsers with other mark tables. *)
Definition scenario_browser : Host.t := browser (Some scenario_marks) None.

Definition no_redirect_browser : Host.t :=
  browser (Some (object_of [ ("navigationStart", 50%float);
                             ("redirectStart", 0%float);
                             ("redirectEnd", 0%float);
                             ("fetchStart", 100%float) ])) None.

Definition redirected_browser : Host.t :=
  browser (Some (object_of [ ("navigationStart", 50%float);
                             ("redirectStart", 60%float);
                             ("redirectEnd", 85%float);
                             ("fetchStart", 100%float) ])) None.

Definition unloaded_browser : Host.t :=
  browser (Some (object_of [ ("navigationStart", 50%float);
                             ("unloadEventStart", 120%float);
                             ("unloadEventEnd", 130%float) ])) None.

Definition half_unloaded_browser : Host.t :=
  browser (Some (object_of [ ("navigationStart", 50%float);
                             ("unloadEventStart", 120%float);
                             ("unloadEventEnd", 0%float) ])) None.

(** A browser without a mark table whose navigation record has the given
    type. *)
Definition navigating_browser (type : float) : Host.t :=
  browser None (Some (mkNavigation (Number type) (Number 0))).

(** A block that takes as long as [reads] readings of the clock. *)
Definition busy_block (reads : nat) : binding value -> list value -> M unit :=
  fun _ _ w => Return tt (mkWorld (console_output w) (clock_reads w + reads)).

(** A block that throws. *)
Definition failing_block : binding value -> list value -> M unit :=
  fun _ _ => throw (Raised Undefined).

(** The metric [m] returns [x], which [pp] prints as [text]. *)
Definition shows (m : M value) (x : float) (text : string) : Prop :=
  returns m (Number x) /\ returns (pp m) (text ++ newline).

(** The text of the report for the values of its ten metrics. *)
Definition report (network_ download_ application_ parse_ external_ dom_
                   timeToFirstByte_ timeToInteractive_ timeToDomReady_
                   total_ : value) : string :=
  String.concat ""
    [ newline;
      "Timings"; newline;
      "-----------------------------"; newline;
      "               Network "; pp_line network_;
      "              Download "; pp_line download_;
      "           Application "; pp_line application_;
      "                 Parse "; pp_line parse_;
      "       External Assets "; pp_line external_;
      "              Document "; pp_line dom_;
      newline;
      "    Time to First Byte "; pp_line timeToFirstByte_;
      "   Time to Interactive "; pp_line timeToInteractive_;
      "Time to Document Ready "; pp_line timeToDomReady_;
      "    Total Time to Load "; pp_line total_ ].

(** Decimal digits, and the shape [-]d...d.ddd of a number printed with [f]
    decimals. *)
Definition is_digit (c : ascii) : bool :=
  (48 <=? nat_of_ascii c)%nat && (nat_of_ascii c <=? 57)%nat.

Fixpoint all_digits (s : string) : bool :=
  match s with
  | EmptyString => true
  | String c s' => is_digit c && all_digits s'
  end.

Definition fixed_point (f : nat) (s : string) : Prop :=
  exists sign whole frac : string,
    s = sign ++ whole ++ "." ++ frac
    /\ (sign = "" \/ sign = "-")
    /\ whole <> ""
    /\ all_digits whole = true
    /\ all_digits frac = true
    /\ String.length frac = f.

(** [x] is finite and of magnitude below 10^21, decided on the real number
    it denotes. *)
Definition below_1e21 (x : float) : bool :=
  match Prim2SF x with
  | S754_zero _ => true
  | S754_finite _ m e => negb (at_least_1e21 m e)
  | _ => false
  end.

End Runs.

(* ===================================================================== *)
(** * What a run does to the console and the clock *)
(* ===================================================================== *)

Module Effects.

Import JS Host Timing Runs.

(** The warning of a lookup made before the document is complete. *)
Definition not_loaded_warning : string :=
  "document is not loaded yet, timing for some segments may be incorrect.".

(** What [lookups] raw lookups write to the console: the warning once per
    lookup when the mark source exists, the document is not complete and
    console.warn is there; nothing otherwise. *)
Definition lookup_warnings (h : Host.t) (lookups : nat) : list string :=
  match window_console h with
  | ConsoleWithWarn =>
      if timing_implemented h && negb (ready h)
      then repeat not_loaded_warning lookups
      else []
  | _ => []
  end.

(** [m] returns [a] from every state, having written the warnings of
    [lookups] lookups and read no clock. *)
Definition writes (h : Host.t) (lookups : nat) {A : Type} (m : M A) (a : A)
  : Prop :=
  forall w,
    m w = Return a (mkWorld (console_output w ++ lookup_warnings h lookups)
                            (clock_reads w)).


(** How many lookups [fromSameOrigin] makes: the second only when the first
    mark is not zero. *)
Definition fromSameOrigin_lookups (h : Host.t) : nat :=
  if strict_not_equal (mark h "unloadEventStart") (Number 0) then 2 else 1.

(** Falsy values: undefined, the zeros and NaN. *)
Definition falsy (v : value) : Prop :=
  v = Undefined
  \/ exists x, v = Number x /\ (is_zero x = true \/ is_nan x = true).

(** The clock [now] reads. *)
Definition clock_of (h : Host.t) : Clock :=
  match now_source h with
  | PerformanceNow c => c
  | PerformanceWebkitNow c => c
  | DateNow => Date_now h
  end.

(** Who [timeMS] calls its block on. *)
Definition binding_of {Arg : Type} (rest : list Arg) : binding Arg :=
  match rest with
  | [] => TheWindow
  | b :: _ => Bound b
  end.

(** The navigation codes the switch of [init] has a clause for. *)
Definition known_navigation_code (v : value) : bool :=
  strict_equal v (Number 0) || strict_equal v (Number 1)
  || strict_equal v (Number 2) || strict_equal v (Number 255).

(** What evaluating the module writes when console.warn is there. *)
Definition load_warnings (h : Host.t) : list string :=
  (match window_performance h with
   | None => ["window.performance is not implement."]
   | Some p =>
       (match performance_timing p with
        | None => ["window.performance.timing is not implement."]
        | Some _ => []
        end)
       ++ (match performance_navigation p with
           | None => ["window.performance.navigation is not implement."]
           | Some _ => []
           end)
   end)
  ++ (match now_source h with
      | DateNow => ["window.performance.now is not implemented, using Date.now"]
      | _ => []
      end).

(** The scenario's browser while the document is still loading, and the
    same without a console. *)
Definition loading_browser : Host.t :=
  mkHost (Some (mkPerformance (Some scenario_marks) None None None))
         ConsoleWithWarn "loading"
         (fun i => PrimFloat.of_uint63 (Uint63.of_Z (Z.of_nat i))).

Definition silent_loading_browser : Host.t :=
  mkHost (Some (mkPerformance (Some scenario_marks) None None None))
         NoConsole "interactive"
         (fun i => PrimFloat.of_uint63 (Uint63.of_Z (Z.of_nat i))).

(** A clock that reads 1000 at first and 1041 from then on, and a browser
    whose window.performance.now is that clock. *)
Definition two_step_clock : Clock :=
  fun i => match i with O => 1000%float | S _ => 1041%float end.

Definition stepping_browser : Host.t :=
  mkHost (Some (mkPerformance None None (Some two_step_clock) None))
         NoConsole "complete" two_step_clock.

(** The binary64 values that are zero or above: a zero of either sign, a
    positive finite number, or plus infinity. *)
Definition nonneg_sf (r : spec_float) : bool :=
  match r with
  | S754_zero _ => true
  | S754_finite s _ _ => negb s
  | S754_infinity s => negb s
  | S754_nan => false
  end.

(** The number a string of decimal digits denotes, when it is one. *)
Definition read_decimal (s : string) : option N :=
  option_map N.of_uint (NilEmpty.uint_of_string s).

(** [n] is the integer nearest to a thousand times the magnitude of [x],
    the larger of the two when [x] lies half way: with [m * 2^e] that
    magnitude, [n] is [1000 * m * 2^e] when that is an integer, and within a
    half of it otherwise. *)
Definition nearest_thousandths (x : float) (n : N) : Prop :=
  match Prim2SF x with
  | S754_zero _ => n = 0%N
  | S754_finite _ m e =>
      ((0 <= e)%Z -> Z.of_N n = (Z.pos m * 2 ^ e * 1000)%Z)
      /\ ((e < 0)%Z ->
          (2 * 1000 * Z.pos m - 2 ^ (- e) < 2 * Z.of_N n * 2 ^ (- e)
           <= 2 * 1000 * Z.pos m + 2 ^ (- e))%Z)
  | _ => False
  end.

(** The binary64 values that are zero or below. *)
Definition nonpos_sf (r : spec_float) : bool :=
  match r with
  | S754_zero _ => true
  | S754_finite s _ _ => s
  | S754_infinity s => s
  | S754_nan => false
  end.

(** A browser whose redirect marks stand in the order of time. *)
Definition redirected_loading_browser : Host.t :=
  mkHost (Some (mkPerformance
                  (Some (object_of [ ("navigationStart", 50%float);
                                     ("redirectStart", 60%float);
                                     ("redirectEnd", 85%float);
                                     ("fetchStart", 100%float) ]))
                  None None None))
         ConsoleWithWarn "loading"
         (fun i => PrimFloat.of_uint63 (Uint63.of_Z (Z.of_nat i))).

End Effects.

(* ===================================================================== *)
(** * Facts about the JavaScript fragment *)
(* ===================================================================== *)

Module JSFacts.

Import JS.
Local Open Scope js_scope.

Lemma bind_Return {A B} {m : M A} (k : A -> M B) {w a w'} :
  m w = Return a w' -> bind m k w = k a w'.
Proof. intros E. unfold bind. now rewrite E. Qed.

Lemma bind_Throw {A B} {m : M A} (k : A -> M B) {w e w'} :
  m w = Throw e w' -> bind m k w = Throw e w'.
Proof. intros E. unfold bind. now rewrite E. Qed.

Lemma bind_inv {A B} (m : M A) (k : A -> M B) w b w' :
  bind m k w = Return b w' ->
  exists a w1, m w = Return a w1 /\ k a w1 = Return b w'.
Proof.
  unfold bind. destruct (m w) as [a w1|e w1]; [eauto|discriminate].
Qed.

Lemma returns_unique {A} {m : M A} {a b : A} :
  returns m a -> returns m b -> a = b.
Proof.
  intros Ha Hb.
  destruct (Ha (mkWorld [] 0)) as [w1 E1].
  destruct (Hb (mkWorld [] 0)) as [w2 E2].
  congruence.
Qed.

Lemma returns_eq {A} (m : M A) (a b : A) : returns m a -> a = b -> returns m b.
Proof. now intros H <-. Qed.

Lemma ret_returns {A} (a : A) : returns (ret a) a.
Proof. intros w. unfold ret. eauto. Qed.

Lemma bind_returns {A B} (m : M A) (k : A -> M B) (a : A) (b : B) :
  returns m a -> returns (k a) b -> returns (bind m k) b.
Proof.
  intros Hm Hk w. destruct (Hm w) as [w1 E1].
  rewrite (bind_Return _ E1). apply Hk.
Qed.

Lemma bind_never_throws {A B} (m : M A) (k : A -> M B) :
  never_throws m -> (forall a, never_throws (k a)) -> never_throws (bind m k).
Proof.
  intros Hm Hk w. destruct (Hm w) as [a [w1 E1]].
  rewrite (bind_Return _ E1). apply Hk.
Qed.

Lemma ret_never_throws {A} (a : A) : never_throws (ret a).
Proof. intros w. unfold ret. eauto. Qed.

Lemma append_assoc (a b c : string) : (a ++ b) ++ c = a ++ (b ++ c).
Proof. induction a as [|ch a IH]; simpl; [reflexivity|now rewrite IH]. Qed.

Lemma returns_never_throws {A} (m : M A) (a : A) :
  returns m a -> never_throws m.
Proof. intros H w. destruct (H w) as [w' E]. eauto. Qed.

(** A falsy operand makes the conjunction falsy. *)
Lemma and_falsy_l a b : to_boolean a = false -> to_boolean (and_ a b) = false.
Proof. intros H. unfold and_. now rewrite H. Qed.

Lemma and_falsy_r a b : to_boolean b = false -> to_boolean (and_ a b) = false.
Proof. intros H. unfold and_. destruct (to_boolean a) eqn:E; assumption. Qed.

Lemma and_truthy a b :
  to_boolean a = true -> to_boolean b = true -> to_boolean (and_ a b) = true.
Proof. intros Ha Hb. unfold and_. now rewrite Ha. Qed.

Lemma to_boolean_number x :
  is_zero x = false -> is_nan x = false -> to_boolean (Number x) = true.
Proof. intros Hz Hn. simpl. now rewrite Hz, Hn. Qed.

Lemma to_boolean_zero x : is_zero x = true -> to_boolean (Number x) = false.
Proof. intros Hz. simpl. now rewrite Hz. Qed.

(** A number is strictly different from 0 exactly when it is not a zero. *)
Lemma strict_not_equal_zero x :
  strict_not_equal (Number x) (Number 0) = negb (is_zero x).
Proof. reflexivity. Qed.

(** ** Subtracting a finite binary64 number from itself gives +0 *)

Lemma Prim2SF_finite_cases x :
  is_finite x = true ->
  (exists s, Prim2SF x = S754_zero s) \/
  (exists s m e, Prim2SF x = S754_finite s m e).
Proof.
  unfold is_finite. intros H.
  apply negb_true_iff, orb_false_iff in H. destruct H as [Hn Hi].
  unfold Prim2SF. rewrite Hn, Hi.
  destruct (is_zero x); [left; eauto|].
  destruct (Z.frexp x) as [r ex].
  destruct (shr_fexp prec emax _ _ _) as [shr e'].
  destruct (shr_m shr); [left|right|left]; eauto.
Qed.

Lemma SF64sub_diag sf :
  (exists s, sf = S754_zero s) \/ (exists s m e, sf = S754_finite s m e) ->
  SF64sub sf sf = S754_zero false.
Proof.
  intros [[s ->]|[s [m [e ->]]]].
  - now destruct s.
  - unfold SF64sub, SFsub. now rewrite Z.sub_diag.
Qed.

Lemma float_sub_diag x : is_finite x = true -> PrimFloat.sub x x = 0%float.
Proof.
  intros H. apply Prim2SF_inj. rewrite sub_spec.
  now rewrite SF64sub_diag by now apply Prim2SF_finite_cases.
Qed.

End JSFacts.

(* ===================================================================== *)
(** * How the operations run *)
(* ===================================================================== *)

Module RunFacts.

Import JS Host Timing Runs JSFacts.
Local Open Scope js_scope.

Section WithHost.

Variable h : Host.t.

Lemma warn_run message w : warn h message w = Return tt (warned h message w).
Proof. unfold warn, warned. now destruct (window_console h). Qed.

Lemma timing_implemented_table :
  timing_implemented h = true ->
  exists p table,
    window_performance h = Some p /\ performance_timing p = Some table.
Proof.
  unfold timing_implemented, performance_implemented.
  destruct (window_performance h) as [p|]; [|discriminate].
  destruct (performance_timing p) as [table|] eqn:Et; [|discriminate].
  intros _. exists p, table. now split.
Qed.

Lemma mark_not_implemented key :
  timing_implemented h = false -> mark h key = Undefined.
Proof.
  unfold timing_implemented, performance_implemented, mark.
  destruct (window_performance h) as [p|]; [|reflexivity].
  now destruct (performance_timing p).
Qed.

(** [get] always returns: the mark, after at most one warning. *)
Lemma get_run key w : get h key w = Return (mark h key) (after_get h w).
Proof.
  unfold get, after_get.
  destruct (timing_implemented h) eqn:Ei; simpl.
  - destruct (timing_implemented_table Ei) as [p [table [Ep Et]]].
    assert (Hread : forall w', window_performance_timing h key w'
                               = Return (mark h key) w').
    { intros w'. unfold window_performance_timing, mark. now rewrite Ep, Et. }
    destruct (ready h); simpl.
    + unfold bind, ret. apply Hread.
    + unfold bind. rewrite warn_run. apply Hread.
  - now rewrite mark_not_implemented.
Qed.

Lemma get_returns key : returns (get h key) (mark h key).
Proof. intros w. rewrite get_run. eauto. Qed.

Lemma get_returns_inv key v : returns (get h key) v -> v = mark h key.
Proof. intros H. exact (returns_unique H (get_returns key)). Qed.

Lemma interval_not_implemented start end_ :
  timing_implemented h = false -> interval h start end_ = Undefined.
Proof.
  intros E. unfold interval. now rewrite !mark_not_implemented.
Qed.

(** [timing] always returns: the interval, after its two lookups. *)
Lemma timing_run start end_ w :
  exists w', timing h start end_ w = Return (interval h start end_) w'.
Proof.
  unfold timing.
  destruct (timing_implemented h) eqn:Ei.
  - unfold bind. rewrite !get_run. unfold interval.
    destruct (to_boolean _); unfold ret; eauto.
  - rewrite interval_not_implemented by assumption. unfold ret. eauto.
Qed.

Lemma timing_returns start end_ :
  returns (timing h start end_) (interval h start end_).
Proof. intros w. apply timing_run. Qed.

Lemma timing_returns_inv start end_ v :
  returns (timing h start end_) v -> v = interval h start end_.
Proof. intros H. exact (returns_unique H (timing_returns start end_)). Qed.

(** [fromSameOrigin] always returns. *)
Lemma fromSameOrigin_returns :
  returns (fromSameOrigin h)
          (strict_not_equal (mark h "unloadEventStart") (Number 0)
           && strict_not_equal (mark h "unloadEventEnd") (Number 0)).
Proof.
  intros w. unfold fromSameOrigin, bind. rewrite get_run.
  destruct (strict_not_equal (mark h "unloadEventStart") _); simpl.
  - rewrite get_run. unfold ret. eauto.
  - unfold ret. eauto.
Qed.

(** [external] always returns. *)
Lemma external_returns : returns (external h) (external_value h).
Proof.
  intros w. unfold external, external_value, dom, parse.
  destruct (timing_run "domLoading" "domComplete" w) as [w1 E1].
  rewrite (bind_Return _ E1).
  destruct (timing_run "domLoading" "domInteractive" w1) as [w2 E2].
  rewrite (bind_Return _ E2).
  destruct (_ && _).
  - destruct (timing_run "domLoading" "domComplete" w2) as [w3 E3].
    rewrite (bind_Return _ E3).
    destruct (timing_run "domLoading" "domInteractive" w3) as [w4 E4].
    rewrite (bind_Return _ E4).
    unfold ret. eauto.
  - unfold ret. eauto.
Qed.

(** [pp] prints the line of whatever its metric returns. *)
Lemma pp_returns (f : M value) v :
  returns f v -> returns (pp f) (pp_line v).
Proof.
  intros Hf w. destruct (Hf w) as [w' E].
  unfold pp. rewrite (bind_Return _ E). unfold ret, pp_line. eauto.
Qed.

(** [log] always returns: the report of what its ten metrics return. *)
Lemma log_returns :
  returns (log h)
          (report (interval h "fetchStart" "responseEnd")
                  (interval h "responseStart" "responseEnd")
                  (interval h "requestStart" "responseEnd")
                  (interval h "domLoading" "domInteractive")
                  (external_value h)
                  (interval h "domLoading" "domComplete")
                  (interval h "fetchStart" "responseStart")
                  (interval h "fetchStart" "domInteractive")
                  (interval h "fetchStart" "domContentLoadedEventEnd")
                  (interval h "fetchStart" "loadEventEnd")).
Proof.
  eapply returns_eq.
  - unfold log.
    repeat (eapply bind_returns;
            [ apply pp_returns; first [apply external_returns | apply timing_returns]
            | ]).
    apply ret_returns.
  - unfold report. cbn [String.concat].
    repeat rewrite append_assoc. reflexivity.
Qed.

(** The warnings of [init] never throw, and its two reads of
    window.performance.navigation are guarded. *)
Lemma warn_never_throws message : never_throws (warn h message).
Proof. intros w. rewrite warn_run. eauto. Qed.

Lemma navigation_implemented_record :
  navigation_implemented h = true ->
  exists nav, returns (window_performance_navigation h) nav.
Proof.
  unfold navigation_implemented, performance_implemented,
         window_performance_navigation.
  destruct (window_performance h) as [p|]; [|discriminate].
  destruct (performance_navigation p) as [nav|]; [|discriminate].
  intros _. exists nav. apply ret_returns.
Qed.

Lemma init_never_throws : never_throws (init h).
Proof.
  unfold init.
  apply bind_never_throws.
  { destruct (performance_implemented h).
    - apply bind_never_throws.
      + destruct (negb _); [apply warn_never_throws|apply ret_never_throws].
      + intros _. destruct (negb _); [apply warn_never_throws|apply ret_never_throws].
    - apply warn_never_throws. }
  intros _. apply bind_never_throws.
  { destruct (navigation_implemented h) eqn:E; [|apply ret_never_throws].
    destruct (navigation_implemented_record E) as [nav Hnav].
    eapply returns_never_throws, bind_returns; [exact Hnav|apply ret_returns]. }
  intros ty. apply bind_never_throws.
  { destruct (navigation_implemented h) eqn:E; [|apply ret_never_throws].
    destruct (navigation_implemented_record E) as [nav Hnav].
    eapply returns_never_throws, bind_returns; [exact Hnav|apply ret_returns]. }
  intros rc. apply bind_never_throws.
  { destruct (now_source h); try apply ret_never_throws.
    apply bind_never_throws; [apply warn_never_throws|].
    intros _. apply ret_never_throws. }
  intros n. apply ret_never_throws.
Qed.

(** The stopwatch lets out only what its block throws. *)
Lemma now_never_throws : never_throws (now h).
Proof.
  intros w. unfold now, read_clock. destruct (now_source h); eauto.
Qed.

Lemma timeMS_never_throws {Arg : Type}
    (block : binding Arg -> list Arg -> M unit) (rest : list Arg) :
  (forall b args, never_throws (block b args)) ->
  never_throws (timeMS h block rest).
Proof.
  intros Hb. unfold timeMS.
  apply bind_never_throws; [apply now_never_throws|]. intros start.
  apply bind_never_throws; [apply Hb|]. intros _.
  apply bind_never_throws; [apply now_never_throws|]. intros stop.
  apply ret_never_throws.
Qed.

Lemma time_never_throws {Arg : Type}
    (block : binding Arg -> list Arg -> M unit) (rest : list Arg) :
  (forall b args, never_throws (block b args)) ->
  never_throws (time h block rest).
Proof.
  intros Hb. unfold time.
  apply bind_never_throws; [now apply timeMS_never_throws|].
  intros ms. apply ret_never_throws.
Qed.

(** When [timeMS] returns, it returns a number. *)
Lemma timeMS_number {Arg : Type}
    (block : binding Arg -> list Arg -> M unit) (rest : list Arg) w v w' :
  timeMS h block rest w = Return v w' -> exists ms, v = Number ms.
Proof.
  unfold timeMS, bind, ret.
  destruct (now h w) as [start w1|e w1]; [|discriminate].
  destruct (block _ _ w1) as [[] w2|e w2]; [|discriminate].
  destruct (now h w2) as [stop w3|e w3]; [|discriminate].
  intros [= <- _]. eauto.
Qed.

End WithHost.

End RunFacts.

(* ===================================================================== *)
(** * The shape of what toFixed prints *)
(* ===================================================================== *)

Module FormatFacts.

Import JS Runs JSFacts.

Lemma length_append (a b : string) :
  String.length (a ++ b) = String.length a + String.length b.
Proof. induction a as [|c a IH]; simpl; [reflexivity|now rewrite IH]. Qed.

Lemma all_digits_append (a b : string) :
  all_digits (a ++ b) = all_digits a && all_digits b.
Proof.
  induction a as [|c a IH]; simpl; [reflexivity|].
  now rewrite IH, andb_assoc.
Qed.

Lemma all_digits_zeros (k : nat) : all_digits (zeros k) = true.
Proof. induction k as [|k IH]; simpl; [reflexivity|exact IH]. Qed.

Lemma length_zeros (k : nat) : String.length (zeros k) = k.
Proof. induction k as [|k IH]; simpl; [reflexivity|now rewrite IH]. Qed.

Lemma all_digits_substring (s : string) :
  all_digits s = true -> forall n m, all_digits (substring n m s) = true.
Proof.
  induction s as [|c s IH]; intros H n m.
  - now destruct n, m.
  - simpl in H. apply andb_true_iff in H. destruct H as [Hc Hs].
    destruct n as [|n]; [destruct m as [|m]|]; simpl.
    + reflexivity.
    + now rewrite Hc, IH.
    + now apply IH.
Qed.

Lemma length_substring (s : string) :
  forall n m, n + m <= String.length s -> String.length (substring n m s) = m.
Proof.
  induction s as [|c s IH]; intros n m H; simpl in H.
  - assert (n = 0) by lia. assert (m = 0) by lia. now subst.
  - destruct n as [|n]; [destruct m as [|m]|]; simpl.
    + reflexivity.
    + rewrite IH by lia. reflexivity.
    + apply IH. lia.
Qed.

(** A string is its first [n] characters followed by the rest. *)
Lemma substring_split (s : string) :
  forall n, n <= String.length s ->
  s = substring 0 n s ++ substring n (String.length s - n) s.
Proof.
  induction s as [|c s IH]; intros n H; simpl in H.
  - assert (n = 0) by lia. now subst.
  - destruct n as [|n]; simpl.
    + f_equal. clear. induction s as [|c s IH]; simpl; [reflexivity|].
      now rewrite <- IH.
    + f_equal. apply IH. lia.
Qed.

Lemma all_digits_uint (d : Decimal.uint) :
  all_digits (NilEmpty.string_of_uint d) = true.
Proof. induction d; simpl; auto. Qed.

Lemma all_digits_decimal (n : N) : all_digits (decimal n) = true.
Proof.
  unfold decimal, NilZero.string_of_uint.
  destruct (N.to_uint n) eqn:E; try reflexivity;
    rewrite <- E; apply all_digits_uint.
Qed.

Lemma length_decimal (n : N) : 1 <= String.length (decimal n).
Proof.
  unfold decimal, NilZero.string_of_uint.
  destruct (N.to_uint n); simpl; lia.
Qed.

(** With at least one decimal asked for, [fixed_digits] prints one digit or
    more, a point, and exactly that many digits. *)
Lemma fixed_digits_shape (n : N) (f : nat) :
  exists whole frac : string,
    fixed_digits n (S f) = whole ++ "." ++ frac
    /\ whole <> ""
    /\ all_digits whole = true
    /\ all_digits frac = true
    /\ String.length frac = S f.
Proof.
  unfold fixed_digits.
  set (m0 := decimal n).
  set (m := if Nat.leb (String.length m0) (S f)
            then zeros (S f + 1 - String.length m0) ++ m0 else m0).
  assert (Hd : all_digits m = true).
  { unfold m, m0. destruct (Nat.leb _ _).
    - now rewrite all_digits_append, all_digits_zeros, all_digits_decimal.
    - apply all_digits_decimal. }
  assert (Hl : S (S f) <= String.length m).
  { pose proof (length_decimal n) as L1. fold m0 in L1.
    unfold m. destruct (Nat.leb _ _) eqn:E.
    - apply Nat.leb_le in E.
      rewrite length_append, length_zeros. lia.
    - apply Nat.leb_gt in E. lia. }
  exists (substring 0 (String.length m - S f) m),
         (substring (String.length m - S f) (S f) m).
  split; [reflexivity|].
  split; [|split; [|split]].
  - intros E.
    assert (L : String.length (substring 0 (String.length m - S f) m)
                = String.length m - S f) by (apply length_substring; lia).
    rewrite E in L. simpl in L. lia.
  - now apply all_digits_substring.
  - now apply all_digits_substring.
  - apply length_substring. lia.
Qed.

(** Below 10^21 in magnitude, [toFixed] prints in fixed-point form. *)
Lemma toFixed_fixed_point (f : nat) (x : float) :
  below_1e21 x = true -> fixed_point (S f) (toFixed (S f) x).
Proof.
  unfold below_1e21, toFixed.
  destruct (Prim2SF x) as [s| | |s m e]; try discriminate.
  - intros _.
    destruct (fixed_digits_shape 0 f) as [whole [frac [E H]]].
    exists "", whole, frac. rewrite E. split; [reflexivity|]. split; [now left|exact H].
  - intros B. apply negb_true_iff in B. rewrite B.
    destruct (fixed_digits_shape (scaled_nearest m e (S f)) f)
      as [whole [frac [E H]]].
    exists (if s then "-" else ""), whole, frac. rewrite E.
    split; [reflexivity|]. split; [destruct s; auto|exact H].
Qed.

End FormatFacts.

(* ===================================================================== *)
(** * The properties of the specification *)
(* ===================================================================== *)

Module Spec.

Import JS Host Timing Runs JSFacts RunFacts FormatFacts.
Local Open Scope js_scope.

(** Two numbers in order are not NaN. *)
Lemma leb_true_not_nan (x y : float) :
  PrimFloat.leb x y = true -> is_nan x = false /\ is_nan y = false.
Proof.
  rewrite leb_spec. intros H.
  split.
  - destruct (is_nan x) eqn:E; [|reflexivity].
    assert (Hx : Prim2SF x = S754_nan) by (unfold Prim2SF; now rewrite E).
    rewrite Hx in H. now destruct (Prim2SF y).
  - destruct (is_nan y) eqn:E; [|reflexivity].
    assert (Hy : Prim2SF y = S754_nan) by (unfold Prim2SF; now rewrite E).
    rewrite Hy in H. now destruct (Prim2SF x).
Qed.

(** The interval of two truthy marks, in whatever order they stand. *)
Lemma timing_of_truthy_marks (h : Host.t) (start end_ : string) (t0 t1 : float) :
  returns (get h start) (Number t0) ->
  returns (get h end_) (Number t1) ->
  to_boolean (Number t0) = true ->
  to_boolean (Number t1) = true ->
  returns (timing h start end_)
          (Number (PrimFloat.div (PrimFloat.sub t1 t0) 1000)).
Proof.
  intros H0 H1 T0 T1.
  apply get_returns_inv in H0. apply get_returns_inv in H1.
  assert (E : interval h start end_
              = Number (PrimFloat.div (PrimFloat.sub t1 t0) 1000)).
  { unfold interval. rewrite <- H0, <- H1.
    now rewrite (and_truthy _ _ T0 T1). }
  rewrite <- E. apply timing_returns.
Qed.

(** The interval when a mark is falsy. *)
Lemma timing_of_falsy_mark (h : Host.t) (start end_ : string) (t0 t1 : value) :
  returns (get h start) t0 ->
  returns (get h end_) t1 ->
  to_boolean t0 = false \/ to_boolean t1 = false ->
  returns (timing h start end_) Undefined.
Proof.
  intros H0 H1 F.
  apply get_returns_inv in H0. apply get_returns_inv in H1.
  assert (E : interval h start end_ = Undefined).
  { unfold interval. rewrite <- H0, <- H1.
    destruct F as [F|F];
      [now rewrite (and_falsy_l _ _ F) | now rewrite (and_falsy_r _ _ F)]. }
  rewrite <- E. apply timing_returns.
Qed.

Lemma not_available_falsy (v : value) : not_available v -> to_boolean v = false.
Proof.
  intros [->|[x [-> Hz]]]; [reflexivity|now apply to_boolean_zero].
Qed.

(** C1. For every pair of mark names whose raw lookups both yield a number
    that is not zero, with the end mark at or after the start mark, the
    pairwise interval function returns exactly (value(end) - value(start)) /
    1000; when the two marks are one and the same finite timestamp it
    returns the number 0, not "not available". *)
Theorem timing_interval (h : Host.t) (start end_ : string) (t0 t1 : float) :
  returns (get h start) (Number t0) ->
  returns (get h end_) (Number t1) ->
  is_zero t0 = false ->
  is_zero t1 = false ->
  PrimFloat.leb t0 t1 = true ->
  returns (timing h start end_)
          (Number (PrimFloat.div (PrimFloat.sub t1 t0) 1000))
  /\ (t0 = t1 -> is_finite t1 = true ->
      returns (timing h start end_) (Number 0)).
Proof.
  intros H0 H1 Z0 Z1 Hle.
  destruct (leb_true_not_nan _ _ Hle) as [N0 N1].
  assert (R : returns (timing h start end_)
                      (Number (PrimFloat.div (PrimFloat.sub t1 t0) 1000))).
  { apply timing_of_truthy_marks; auto using to_boolean_number. }
  split; [exact R|].
  intros -> Hfin. now rewrite float_sub_diag in R.
Qed.

(** C2. If either raw mark lookup yields "not available" (undefined, or
    zero), the pairwise interval function returns undefined, which is
    neither the number 0 nor NaN; so with redirectStart and redirectEnd both
    zero the redirect time is undefined. *)
Theorem timing_not_available (h : Host.t) :
  (forall (start end_ : string) (t0 t1 : value),
      returns (get h start) t0 ->
      returns (get h end_) t1 ->
      not_available t0 \/ not_available t1 ->
      returns (timing h start end_) Undefined)
  /\ (returns (get h "redirectStart") (Number 0) ->
      returns (get h "redirectEnd") (Number 0) ->
      returns (redirect h) Undefined).
Proof.
  split.
  - intros start end_ t0 t1 H0 H1 [F|F];
      apply (timing_of_falsy_mark _ _ _ _ _ H0 H1);
      [left|right]; now apply not_available_falsy.
  - intros Hs He. unfold redirect.
    apply (timing_of_falsy_mark _ _ _ _ _ He Hs). now left.
Qed.

(** C4. The redirect-time metric is the pairwise interval whose start mark
    is redirectEnd and whose end mark is redirectStart: with both redirect
    marks available it returns (redirectStart - redirectEnd) / 1000. *)
Theorem redirect_reversed (h : Host.t) :
  redirect h = timing h "redirectEnd" "redirectStart"
  /\ (forall rs re : float,
         returns (get h "redirectStart") (Number rs) ->
         returns (get h "redirectEnd") (Number re) ->
         to_boolean (Number rs) = true ->
         to_boolean (Number re) = true ->
         returns (redirect h)
                 (Number (PrimFloat.div (PrimFloat.sub rs re) 1000))).
Proof.
  split; [reflexivity|].
  intros rs re Hs He Ts Te. unfold redirect.
  now apply timing_of_truthy_marks.
Qed.

(** C5, as the code has it.  The same-origin check returns true exactly when
    neither unload mark is zero: false when both are zero, and false as well
    when only one of them is. *)
Theorem fromSameOrigin_both_nonzero (h : Host.t) (a b : float) :
  returns (get h "unloadEventStart") (Number a) ->
  returns (get h "unloadEventEnd") (Number b) ->
  returns (fromSameOrigin h) (negb (is_zero a) && negb (is_zero b)).
Proof.
  intros Ha Hb.
  apply get_returns_inv in Ha. apply get_returns_inv in Hb.
  rewrite <- !strict_not_equal_zero, Ha, Hb.
  apply fromSameOrigin_returns.
Qed.

(** C8. The external-assets metric is document total time minus parse time
    whenever both of them are available, and undefined whenever either of
    them is. *)
Theorem external_composite (h : Host.t) :
  (forall d p : float,
      returns (dom h) (Number d) ->
      returns (parse h) (Number p) ->
      returns (external h) (Number (PrimFloat.sub d p)))
  /\ (returns (dom h) Undefined \/ returns (parse h) Undefined ->
      returns (external h) Undefined).
Proof.
  split.
  - intros d p Hd Hp.
    apply timing_returns_inv in Hd. apply timing_returns_inv in Hp.
    assert (E : external_value h = Number (PrimFloat.sub d p)).
    { unfold external_value. now rewrite <- Hd, <- Hp. }
    rewrite <- E. apply external_returns.
  - intros H.
    assert (E : external_value h = Undefined).
    { unfold external_value.
      destruct H as [H|H]; apply timing_returns_inv in H; rewrite <- H.
      - reflexivity.
      - now rewrite andb_false_r. }
    rewrite <- E. apply external_returns.
Qed.

(** One line of the scenario: the metric's number and its printed form. *)
Ltac scenario_metric run :=
  split;
  [ eapply returns_eq; [apply run | vm_compute; reflexivity]
  | eapply returns_eq; [apply pp_returns, run | vm_compute; reflexivity] ].

(** C3. On the mark table of the scenario (fetchStart 100,
    domainLookupStart 110, domainLookupEnd 140, connectStart 140, connectEnd
    180, requestStart 180, responseStart 300, responseEnd 350, domLoading
    350, domInteractive 500, domComplete 700, loadEventStart 700,
    loadEventEnd 720, navigationStart 50) the catalog metrics return, to the
    three decimals the report prints: DNS lookup 0.030s, TCP connect 0.040s,
    request 0.120s, download 0.050s, network 0.250s, parse 0.150s, document
    total 0.350s, external assets 0.200s, total load 0.620s, total page
    0.670s, time to first byte 0.200s.  Each number is the binary64 value
    nearest the decimal, but for external assets, whose difference of 0.35
    and 0.15 is one unit in the last place below 0.2. *)
Theorem scenario_metrics (nav : option PerformanceNavigation)
    (native webkit : option Clock) (console : Console) (readyState : string)
    (date : Clock) :
  let h := scenario_host nav native webkit console readyState date in
  shows (dns h) 0.03 "0.030s"
  /\ shows (tcp h) 0.04 "0.040s"
  /\ shows (request h) 0.12 "0.120s"
  /\ shows (download h) 0.05 "0.050s"
  /\ shows (network h) 0.25 "0.250s"
  /\ shows (parse h) 0.15 "0.150s"
  /\ shows (dom h) 0.35 "0.350s"
  /\ shows (external h) 0.19999999999999998 "0.200s"
  /\ shows (total h) 0.62 "0.620s"
  /\ shows (real h) 0.67 "0.670s"
  /\ shows (timeToFirstByte h) 0.2 "0.200s".
Proof.
  intros h.
  repeat match goal with |- _ /\ _ => split end;
    first [ scenario_metric (timing_returns h) | scenario_metric (external_returns h) ].
Qed.

(** The metrics of a host without a mark table. *)
Lemma catalog_not_implemented (h : Host.t) :
  timing_implemented h = false ->
  Forall (fun entry => returns (snd entry) Undefined) (catalog h).
Proof.
  intros E.
  assert (T : forall a b, returns (timing h a b) Undefined).
  { intros a b. rewrite <- (interval_not_implemented h a b E).
    apply timing_returns. }
  assert (X : returns (external h) Undefined).
  { eapply returns_eq; [apply external_returns|].
    unfold external_value. now rewrite !interval_not_implemented. }
  unfold catalog.
  repeat (apply Forall_cons; [first [exact X | apply T]|]).
  apply Forall_nil.
Qed.

(** C6, as the code has it.  When the mark-timestamp source is absent, the
    raw lookup, the pairwise interval and every metric of the catalog return
    undefined, and the report prints N/A on each of its lines; the ready
    check still tells whether the document is complete, whatever the mark
    source; and no operation lets an exception out: not the lookups, the
    metrics, the report, the same-origin check or the evaluation of the
    module, and the stopwatch only what its own block throws. *)
Theorem absent_source_not_available (h : Host.t) :
  timing_implemented h = false ->
  (forall key, returns (get h key) Undefined)
  /\ (forall start end_, returns (timing h start end_) Undefined)
  /\ Forall (fun entry => returns (snd entry) Undefined) (catalog h)
  /\ returns (log h)
             (report Undefined Undefined Undefined Undefined Undefined
                     Undefined Undefined Undefined Undefined Undefined)
  /\ (ready h = true <-> document_readyState h = "complete")
  /\ never_throws (fromSameOrigin h)
  /\ never_throws (init h)
  /\ (forall (Arg : Type) (block : binding Arg -> list Arg -> M unit) rest,
         (forall b args, never_throws (block b args)) ->
         never_throws (timeMS h block rest) /\ never_throws (time h block rest)).
Proof.
  intros E.
  split; [|split; [|split; [|split; [|split; [|split; [|split]]]]]].
  - intros key. rewrite <- (mark_not_implemented h key E). apply get_returns.
  - intros a b. rewrite <- (interval_not_implemented h a b E).
    apply timing_returns.
  - now apply catalog_not_implemented.
  - eapply returns_eq; [apply log_returns|].
    unfold external_value. now rewrite !interval_not_implemented.
  - unfold ready. apply String.eqb_eq.
  - exact (returns_never_throws _ _ (fromSameOrigin_returns h)).
  - apply init_never_throws.
  - intros Arg block rest Hb.
    split; [now apply timeMS_never_throws|now apply time_never_throws].
Qed.

(** The only navigation type [init] ever stores is 'unknown'. *)
Lemma navigationType_unknown_or_undefined (h : Host.t) w st w' :
  init h w = Return st w' ->
  navigationType st = None \/ navigationType st = Some "unknown".
Proof.
  unfold init. intros H.
  apply bind_inv in H. destruct H as [[] [w1 [_ H]]].
  apply bind_inv in H. destruct H as [ty [w2 [Hty H]]].
  apply bind_inv in H. destruct H as [rc [w3 [_ H]]].
  apply bind_inv in H. destruct H as [n [w4 [_ H]]].
  injection H as <- _. simpl.
  destruct (navigation_implemented h).
  - apply bind_inv in Hty. destruct Hty as [nav [w5 [_ Hty]]].
    injection Hty as <- _. simpl.
    destruct (strict_equal _ _); [now right|].
    destruct (strict_equal _ _); [now right|].
    destruct (strict_equal _ _); [now right|].
    destruct (strict_equal _ _); [now right|now left].
  - injection Hty as <- _. now left.
Qed.

(** C7, on the code.  The switch over the host's navigation type has no
    break, so control falls through to its last clause: for each of the
    codes 0, 1, 2 and 255 the module stores 'unknown'. *)
Theorem navigationType_falls_through (w : World) :
  (exists st w', init (navigating_browser 0) w = Return st w'
                 /\ navigationType st = Some "unknown")
  /\ (exists st w', init (navigating_browser 1) w = Return st w'
                    /\ navigationType st = Some "unknown")
  /\ (exists st w', init (navigating_browser 2) w = Return st w'
                    /\ navigationType st = Some "unknown")
  /\ (exists st w', init (navigating_browser 255) w = Return st w'
                    /\ navigationType st = Some "unknown").
Proof.
  repeat split; eexists; eexists; split; reflexivity.
Qed.

(** C10. The seconds stopwatch returns the value of the milliseconds
    stopwatch for the same block, binding and arguments divided by 1000: it
    is one and the same execution, leaving the same state behind and
    throwing what that one throws; [measure] is [time]. *)
Theorem time_is_timeMS_by_1000 (h : Host.t) (Arg : Type)
    (block : binding Arg -> list Arg -> M unit) (rest : list Arg) (w : World) :
  (forall ms w', timeMS h block rest w = Return (Number ms) w' ->
                 time h block rest w
                 = Return (Number (PrimFloat.div ms 1000)) w')
  /\ (forall e w', timeMS h block rest w = Throw e w' ->
                   time h block rest w = Throw e w')
  /\ measure h block rest w = time h block rest w.
Proof.
  split; [|split].
  - intros ms w' E. unfold time. now rewrite (bind_Return _ E).
  - intros e w' E. unfold time. now rewrite (bind_Throw _ E).
  - reflexivity.
Qed.

(** C9. The text report is a three-line header followed by one line for
    each of its ten metrics (network, download, application, parse, external
    assets, document, then after an empty line time to first byte, to
    interactive, to document ready, and total time to load); each line is
    the metric's label and either the literal N/A, when the metric is
    undefined, or its value printed by toFixed(3) with an 's' after it,
    which for a value below 10^21 in magnitude is digits, a point and three
    decimals. *)
Theorem log_report (h : Host.t) :
  (exists network_ download_ application_ parse_ external_ dom_
          timeToFirstByte_ timeToInteractive_ timeToDomReady_ total_ : value,
      returns (network h) network_
      /\ returns (download h) download_
      /\ returns (application h) application_
      /\ returns (parse h) parse_
      /\ returns (external h) external_
      /\ returns (dom h) dom_
      /\ returns (timeToFirstByte h) timeToFirstByte_
      /\ returns (timeToInteractive h) timeToInteractive_
      /\ returns (timeToDomReady h) timeToDomReady_
      /\ returns (total h) total_
      /\ returns (log h)
                 (report network_ download_ application_ parse_ external_ dom_
                         timeToFirstByte_ timeToInteractive_ timeToDomReady_
                         total_))
  /\ pp_line Undefined = "N/A" ++ newline
  /\ (forall x, pp_line (Number x) = toFixed 3 x ++ "s" ++ newline)
  /\ (forall x, below_1e21 x = true -> fixed_point 3 (toFixed 3 x)).
Proof.
  split; [|split; [|split]].
  - do 10 eexists.
    repeat match goal with
           | |- returns (log h) _ => apply log_returns
           | |- returns (external h) _ => apply external_returns
           | |- returns _ _ => apply timing_returns
           | |- _ /\ _ => split
           end.
  - reflexivity.
  - intros x. unfold pp_line. apply append_assoc.
  - intros x. apply toFixed_fixed_point.
Qed.

(** ** Witnesses *)

Lemma absent_source_not_available_witness :
  (forall key, returns (get legacy_browser key) Undefined)
  /\ (forall start end_, returns (timing legacy_browser start end_) Undefined)
  /\ Forall (fun entry => returns (snd entry) Undefined) (catalog legacy_browser)
  /\ returns (log legacy_browser)
             (report Undefined Undefined Undefined Undefined Undefined
                     Undefined Undefined Undefined Undefined Undefined)
  /\ (ready legacy_browser = true
      <-> document_readyState legacy_browser = "complete")
  /\ never_throws (fromSameOrigin legacy_browser)
  /\ never_throws (init legacy_browser)
  /\ (forall (Arg : Type) (block : binding Arg -> list Arg -> M unit) rest,
         (forall b args, never_throws (block b args)) ->
         never_throws (timeMS legacy_browser block rest)
         /\ never_throws (time legacy_browser block rest)).
Proof.
  apply (absent_source_not_available legacy_browser). reflexivity.
Defined.

Lemma time_is_timeMS_by_1000_witness :
  time scenario_browser (busy_block 40) [] (mkWorld [] 0)
  = Return (Number (PrimFloat.div 41 1000)) (mkWorld [] 42)
  /\ time scenario_browser failing_block [Undefined] (mkWorld [] 0)
     = Throw (Raised Undefined) (mkWorld [] 1).
Proof.
  split.
  - apply (proj1 (time_is_timeMS_by_1000 scenario_browser value
                                         (busy_block 40) [] (mkWorld [] 0))).
    reflexivity.
  - apply (proj1 (proj2 (time_is_timeMS_by_1000 scenario_browser value
                                                failing_block [Undefined]
                                                (mkWorld [] 0)))).
    reflexivity.
Defined.

Lemma timing_interval_witness :
  returns (timing scenario_browser "domainLookupEnd" "connectStart")
          (Number (PrimFloat.div (PrimFloat.sub 140 140) 1000))
  /\ (140%float = 140%float -> is_finite 140 = true ->
      returns (timing scenario_browser "domainLookupEnd" "connectStart")
              (Number 0)).
Proof.
  apply (timing_interval scenario_browser "domainLookupEnd" "connectStart"
                         140 140).
  - intros w. eexists. reflexivity.
  - intros w. eexists. reflexivity.
  - reflexivity.
  - reflexivity.
  - reflexivity.
Defined.

Lemma timing_not_available_witness :
  returns (timing no_redirect_browser "fetchStart" "redirectEnd") Undefined
  /\ returns (redirect no_redirect_browser) Undefined.
Proof.
  split.
  - apply (proj1 (timing_not_available no_redirect_browser)
                 "fetchStart" "redirectEnd" (Number 100) (Number 0)).
    + intros w. eexists. reflexivity.
    + intros w. eexists. reflexivity.
    + right. right. exists 0%float. split; reflexivity.
  - apply (proj2 (timing_not_available no_redirect_browser)).
    + intros w. eexists. reflexivity.
    + intros w. eexists. reflexivity.
Defined.

Lemma redirect_reversed_witness :
  returns (redirect redirected_browser)
          (Number (PrimFloat.div (PrimFloat.sub 60 85) 1000)).
Proof.
  apply (proj2 (redirect_reversed redirected_browser) 60%float 85%float).
  - intros w. eexists. reflexivity.
  - intros w. eexists. reflexivity.
  - reflexivity.
  - reflexivity.
Defined.

Lemma fromSameOrigin_both_nonzero_witness :
  returns (fromSameOrigin unloaded_browser)
          (negb (is_zero 120) && negb (is_zero 130)).
Proof.
  apply (fromSameOrigin_both_nonzero unloaded_browser 120 130).
  - intros w. eexists. reflexivity.
  - intros w. eexists. reflexivity.
Defined.

Lemma external_composite_witness :
  returns (external scenario_browser)
          (Number (PrimFloat.sub
                     (PrimFloat.div (PrimFloat.sub 700 350) 1000)
                     (PrimFloat.div (PrimFloat.sub 500 350) 1000)))
  /\ returns (external no_redirect_browser) Undefined.
Proof.
  split.
  - apply (proj1 (external_composite scenario_browser)).
    + intros w. eexists. reflexivity.
    + intros w. eexists. reflexivity.
  - apply (proj2 (external_composite no_redirect_browser)).
    left. intros w. eexists. reflexivity.
Defined.

Lemma log_report_witness : fixed_point 3 (toFixed 3 0.25).
Proof.
  apply (proj2 (proj2 (proj2 (log_report scenario_browser))) 0.25%float).
  reflexivity.
Defined.

(** ** Where the code departs from the specification *)

(** C5, as stated, fails: with unloadEventStart at 120 and unloadEventEnd at
    zero, one of the two unload marks is not zero, and the same-origin check
    returns false, not true. *)
Lemma fromSameOrigin_one_mark_zero :
  returns (get half_unloaded_browser "unloadEventStart") (Number 120)
  /\ returns (get half_unloaded_browser "unloadEventEnd") (Number 0)
  /\ returns (fromSameOrigin half_unloaded_browser) false
  /\ ~ returns (fromSameOrigin half_unloaded_browser) true.
Proof.
  assert (F : returns (fromSameOrigin half_unloaded_browser) false)
    by (intros w; eexists; reflexivity).
  repeat split; try (intros w; eexists; reflexivity).
  intros T. discriminate (returns_unique T F).
Qed.

(** C6, as stated, fails: on a host without window.performance whose
    document is complete, the mark source is absent, yet the same-origin
    check returns true and the ready check returns true; neither is "not
    available" or false. *)
Lemma legacy_browser_checks_return_true :
  timing_implemented legacy_browser = false
  /\ returns (fromSameOrigin legacy_browser) true
  /\ ~ returns (fromSameOrigin legacy_browser) false
  /\ ready legacy_browser = true.
Proof.
  assert (T : returns (fromSameOrigin legacy_browser) true)
    by (intros w; eexists; reflexivity).
  repeat split; try exact T.
  intros F. discriminate (returns_unique F T).
Qed.

End Spec.

(* ===================================================================== *)
(** * Console and clock: how the lookups add up *)
(* ===================================================================== *)

Module EffectFacts.

Import JS Host Timing Runs Effects JSFacts RunFacts.
Local Open Scope js_scope.

Lemma world_eta (w : World) : mkWorld (console_output w) (clock_reads w) = w.
Proof. now destruct w. Qed.

Lemma lookup_warnings_add (h : Host.t) (j k : nat) :
  lookup_warnings h (j + k) = (lookup_warnings h j ++ lookup_warnings h k)%list.
Proof.
  unfold lookup_warnings.
  destruct (window_console h); try reflexivity.
  destruct (_ && _); [apply repeat_app|reflexivity].
Qed.

Lemma lookup_warnings_not_implemented (h : Host.t) (k : nat) :
  timing_implemented h = false -> lookup_warnings h k = [].
Proof.
  intros E. unfold lookup_warnings. rewrite E. now destruct (window_console h).
Qed.

Lemma lookup_warnings_loaded (h : Host.t) (k : nat) :
  ready h = true -> lookup_warnings h k = [].
Proof.
  intros E. unfold lookup_warnings. rewrite E, andb_false_r.
  now destruct (window_console h).
Qed.

Lemma writes_ret (h : Host.t) {A} (a : A) : writes h 0 (ret a) a.
Proof.
  intros w. unfold ret, lookup_warnings.
  assert (E : (match window_console h with
               | ConsoleWithWarn =>
                   if timing_implemented h && negb (ready h)
                   then repeat not_loaded_warning 0 else []
               | _ => []
               end) = @nil string).
  { destruct (window_console h); try reflexivity. now destruct (_ && _). }
  now rewrite E, app_nil_r, world_eta.
Qed.

Lemma writes_bind (h : Host.t) {A B} (j k : nat) (m : M A) (f : A -> M B) a b :
  writes h j m a -> writes h k (f a) b -> writes h (j + k) (bind m f) b.
Proof.
  intros Hm Hf w. rewrite (bind_Return _ (Hm w)), Hf. simpl.
  now rewrite lookup_warnings_add, app_assoc.
Qed.



Lemma writes_not_implemented (h : Host.t) {A} (j k : nat) (m : M A) a :
  timing_implemented h = false -> writes h j m a -> writes h k m a.
Proof.
  intros E H w. rewrite H.
  now rewrite !lookup_warnings_not_implemented.
Qed.

Section WithHost.

Variable h : Host.t.

Lemma get_writes key : writes h 1 (get h key) (mark h key).
Proof.
  intros w. rewrite get_run. f_equal.
  unfold after_get, warned, lookup_warnings, not_loaded_warning.
  destruct (timing_implemented h && negb (ready h));
    destruct (window_console h); simpl;
    now rewrite ?app_nil_r, ?world_eta.
Qed.



Lemma fromSameOrigin_writes :
  writes h (fromSameOrigin_lookups h) (fromSameOrigin h)
         (strict_not_equal (mark h "unloadEventStart") (Number 0)
          && strict_not_equal (mark h "unloadEventEnd") (Number 0)).
Proof.
  unfold fromSameOrigin, fromSameOrigin_lookups.
  destruct (strict_not_equal (mark h "unloadEventStart") (Number 0)) eqn:E.
  - change 2 with (1 + (1 + 0)).
    eapply writes_bind; [apply get_writes|]. rewrite E.
    eapply writes_bind; [apply get_writes|]. apply writes_ret.
  - change 1 with (1 + 0).
    eapply writes_bind; [apply get_writes|]. rewrite E. apply writes_ret.
Qed.



End WithHost.

End EffectFacts.

(* ===================================================================== *)
(** * Signs of binary64 differences and quotients *)
(* ===================================================================== *)

Module FloatFacts.

Import JS Runs Effects JSFacts.

Lemma iter_pos_invariant {A} (P : A -> Prop) (f : A -> A) :
  (forall x, P x -> P (f x)) -> forall p x, P x -> P (iter_pos f p x).
Proof.
  intros Hf p. induction p as [p IH|p IH|]; intros x Hx; simpl; auto.
Qed.

Lemma shr_1_nonneg s : (0 <= shr_m s)%Z -> (0 <= shr_m (shr_1 s))%Z.
Proof.
  destruct s as [m r t]. simpl. intros H.
  destruct m as [|[p|p|]|p]; simpl; lia.
Qed.

Lemma shr_fexp_nonneg m e l :
  (0 <= m)%Z -> (0 <= shr_m (fst (shr_fexp prec emax m e l)))%Z.
Proof.
  intros H. unfold shr_fexp, shr.
  assert (H0 : (0 <= shr_m (shr_record_of_loc m l))%Z)
    by (destruct l as [|[]]; exact H).
  destruct (_ - e)%Z; simpl; try exact H0.
  apply (iter_pos_invariant (fun s => 0 <= shr_m s)%Z); [apply shr_1_nonneg|exact H0].
Qed.

Lemma round_nearest_even_nonneg m l :
  (0 <= m)%Z -> (0 <= round_nearest_even m l)%Z.
Proof.
  intros H. destruct l as [|[]]; simpl; try lia.
  destruct (Z.even m); lia.
Qed.

Lemma binary_round_aux_nonneg m e l :
  (0 <= m)%Z -> nonneg_sf (binary_round_aux prec emax false m e l) = true.
Proof.
  intros H. unfold binary_round_aux.
  pose proof (shr_fexp_nonneg m e l H) as H1.
  destruct (shr_fexp prec emax m e l) as [mrs' e'] eqn:E1. simpl in H1.
  pose proof (shr_fexp_nonneg _ e' loc_Exact
                (round_nearest_even_nonneg _ (loc_of_shr_record mrs') H1)) as H2.
  destruct (shr_fexp prec emax (round_nearest_even _ _) e' loc_Exact)
    as [mrs'' e''] eqn:E2. simpl in H2.
  destruct (shr_m mrs''); try reflexivity; [|lia].
  now destruct (_ <=? _)%Z.
Qed.

Lemma binary_normalize_nonneg z e :
  (0 <= z)%Z -> nonneg_sf (binary_normalize prec emax z e false) = true.
Proof.
  intros H. destruct z as [|p|p]; simpl; [reflexivity| |lia].
  unfold binary_round.
  destruct (shl_align _ _ _) as [mz ez].
  apply binary_round_aux_nonneg. lia.
Qed.

Lemma digits2_pos_size (p : positive) : digits2_pos p = Pos.size p.
Proof. induction p; simpl; congruence. Qed.

Lemma mantissa_below (m : positive) : (Z.pos m < 2 ^ Z.pos (digits2_pos m))%Z.
Proof.
  rewrite digits2_pos_size, <- Pos2Z.inj_pow. exact (Pos.size_gt m).
Qed.

Lemma mantissa_above (m : positive) :
  (2 ^ Z.pos (digits2_pos m) <= 2 * Z.pos m)%Z.
Proof.
  rewrite digits2_pos_size, <- Pos2Z.inj_pow. exact (Pos.size_le m).
Qed.

Lemma valid_finite_bounds s m e :
  valid_binary (S754_finite s m e) = true ->
  (Z.pos m < 9007199254740992)%Z
  /\ (-1074 <= e)%Z
  /\ ((-1074 < e)%Z -> (4503599627370496 <= Z.pos m)%Z).
Proof.
  unfold SpecFloat.valid_binary, bounded, canonical_mantissa, fexp.
  change (SpecFloat.emin prec emax) with (-1074)%Z.
  change prec with 53%Z.
  intros V. apply andb_true_iff in V. destruct V as [C _].
  apply Z.eqb_eq in C.
  pose proof (mantissa_below m) as Hlt.
  pose proof (mantissa_above m) as Hge.
  set (d := Z.pos (digits2_pos m)) in *.
  assert (D : (d <= 53)%Z) by lia.
  split; [|split].
  - assert (P : (2 ^ d <= 2 ^ 53)%Z) by (apply Z.pow_le_mono_r; lia).
    change (2 ^ 53)%Z with 9007199254740992%Z in P. lia.
  - lia.
  - intros E. assert (D53 : d = 53%Z) by lia.
    rewrite D53 in Hge.
    change (2 ^ 53)%Z with 9007199254740992%Z in Hge. lia.
Qed.

Lemma iter_xO (d m : positive) :
  Z.pos (Pos.iter xO m d) = (Z.pos m * 2 ^ Z.pos d)%Z.
Proof.
  induction d as [|d IH] using Pos.peano_ind.
  - simpl. rewrite Pos2Z.inj_xO. change (2 ^ 1)%Z with 2%Z. lia.
  - rewrite Pos.iter_succ, Pos2Z.inj_xO, IH, Pos2Z.inj_succ, Z.pow_succ_r by lia.
    ring.
Qed.

Lemma shl_align_value m e ez :
  (ez <= e)%Z ->
  Z.pos (fst (shl_align m e ez)) = (Z.pos m * 2 ^ (e - ez))%Z.
Proof.
  intros H. unfold shl_align.
  destruct (ez - e)%Z as [|p|p] eqn:E; cbn [fst].
  - replace (e - ez)%Z with 0%Z by lia. change (2 ^ 0)%Z with 1%Z. lia.
  - lia.
  - replace (e - ez)%Z with (Z.pos p) by lia. apply iter_xO.
Qed.

Lemma SFleb_aligned sx mx ex sy my ey :
  valid_binary (S754_finite sx mx ex) = true ->
  valid_binary (S754_finite sy my ey) = true ->
  SFleb (S754_finite sx mx ex) (S754_finite sy my ey) = true ->
  (cond_Zopp sx (Z.pos (fst (shl_align mx ex (Z.min ey ex))))
   <= cond_Zopp sy (Z.pos (fst (shl_align my ey (Z.min ey ex)))))%Z.
Proof.
  intros Vx Vy L.
  destruct (valid_finite_bounds _ _ _ Vx) as [Ux [Ex Nx]].
  destruct (valid_finite_bounds _ _ _ Vy) as [Uy [Ey Ny]].
  rewrite !shl_align_value by lia.
  unfold SFleb, SFcompare in L.
  change (Pos.compare_cont Eq mx my) with (Pos.compare mx my) in L.
  destruct (Z.compare_spec ex ey) as [E|E|E].
  - subst ey. rewrite Z.min_id, Z.sub_diag. change (2 ^ 0)%Z with 1%Z.
    destruct (Pos.compare_spec mx my) as [F|F|F];
      destruct sx, sy; simpl in *; try discriminate; lia.
  - rewrite Z.min_r by lia. rewrite Z.sub_diag. change (2 ^ 0)%Z with 1%Z.
    assert (P : (2 ^ 1 <= 2 ^ (ey - ex))%Z) by (apply Z.pow_le_mono_r; lia).
    change (2 ^ 1)%Z with 2%Z in P.
    assert (M : (4503599627370496 * 2 <= Z.pos my * 2 ^ (ey - ex))%Z)
      by (apply Z.mul_le_mono_nonneg; lia).
    destruct sx, sy; simpl in *; try discriminate; lia.
  - rewrite Z.min_l by lia. rewrite Z.sub_diag. change (2 ^ 0)%Z with 1%Z.
    assert (P : (2 ^ 1 <= 2 ^ (ex - ey))%Z) by (apply Z.pow_le_mono_r; lia).
    change (2 ^ 1)%Z with 2%Z in P.
    assert (M : (4503599627370496 * 2 <= Z.pos mx * 2 ^ (ex - ey))%Z)
      by (apply Z.mul_le_mono_nonneg; lia).
    destruct sx, sy; simpl in *; try discriminate; lia.
Qed.

Lemma float_sub_nonneg (x y : float) :
  is_finite x = true -> is_finite y = true ->
  PrimFloat.leb x y = true ->
  PrimFloat.leb 0 (PrimFloat.sub y x) = true.
Proof.
  intros Fx Fy L.
  rewrite leb_spec in L. rewrite leb_spec, sub_spec.
  pose proof (Prim2SF_valid x) as Vx. pose proof (Prim2SF_valid y) as Vy.
  assert (N : nonneg_sf (SF64sub (Prim2SF y) (Prim2SF x)) = true).
  { destruct (Prim2SF_finite_cases x Fx) as [[sx Ex]|[sx [mx [ex Ex]]]];
      destruct (Prim2SF_finite_cases y Fy) as [[sy Ey]|[sy [my [ey Ey]]]];
      rewrite Ex in *; rewrite Ey in *.
    - now destruct sx, sy.
    - destruct sy; [discriminate|reflexivity].
    - destruct sx; [reflexivity|discriminate].
    - unfold SF64sub, SFsub. apply binary_normalize_nonneg.
      pose proof (SFleb_aligned _ _ _ _ _ _ Vx Vy L). lia. }
  change (Prim2SF 0) with (S754_zero false).
  destruct (SF64sub (Prim2SF y) (Prim2SF x)) as [s|s| |s m e];
    try destruct s; try discriminate; reflexivity.
Qed.

Lemma leb_zero_nonneg (x : float) :
  PrimFloat.leb 0 x = nonneg_sf (Prim2SF x).
Proof.
  rewrite leb_spec. change (Prim2SF 0) with (S754_zero false).
  now destruct (Prim2SF x) as [s|s| |s m e]; try destruct s.
Qed.

Lemma SFdiv_core_nonneg m1 e1 m2 e2 :
  (0 <= fst (fst (SFdiv_core_binary prec emax (Z.pos m1) e1 (Z.pos m2) e2)))%Z.
Proof.
  unfold SFdiv_core_binary.
  set (s := (e1 - e2 - _)%Z).
  set (m' := match s with Z.pos _ => Z.shiftl (Z.pos m1) s | 0%Z => Z.pos m1 | Z.neg _ => 0%Z end).
  assert (H : (0 <= m')%Z).
  { unfold m'. destruct s; try lia. apply Z.shiftl_nonneg. lia. }
  pose proof (Z.div_pos m' (Z.pos m2) H ltac:(lia)) as Q.
  unfold Z.div in Q.
  destruct (Z.div_eucl m' (Z.pos m2)) as [q r]. exact Q.
Qed.

Lemma float_div_1000_nonneg (x : float) :
  PrimFloat.leb 0 x = true -> PrimFloat.leb 0 (PrimFloat.div x 1000) = true.
Proof.
  rewrite !leb_zero_nonneg, div_spec.
  change (Prim2SF 1000) with (S754_finite false 8796093022208000 (-43)).
  destruct (Prim2SF x) as [s|s| |s m e]; simpl; try discriminate;
    try (destruct s; simpl; congruence).
  intros H. apply negb_true_iff in H. subst s.
  unfold SF64div, SFdiv.
  pose proof (SFdiv_core_nonneg m e 8796093022208000 (-43)) as Q.
  destruct (SFdiv_core_binary _ _ _ _ _ _) as [[mz ez] lz]. simpl in Q.
  now apply binary_round_aux_nonneg.
Qed.

Lemma Prim2SF_1e21 : Prim2SF 1e21 = S754_finite false 7629394531250000 17.
Proof. reflexivity. Qed.

Lemma range_lt (m : positive) (e : Z) :
  (Z.pos m < 9007199254740992)%Z -> (e < 17)%Z ->
  at_least_1e21 m e = false.
Proof.
  intros U E. unfold at_least_1e21.
  change (10 ^ 21)%Z with 1000000000000000000000%Z.
  destruct e as [|p|p].
    + destruct (Z.leb_spec 1000000000000000000000 (Z.pos m));
        [exfalso; lia|reflexivity].
    + assert (Q : (2 ^ Z.pos p <= 2 ^ 16)%Z) by (apply Z.pow_le_mono_r; lia).
      change (2 ^ 16)%Z with 65536%Z in Q.
      assert (Q0 : (0 < 2 ^ Z.pos p)%Z) by (apply Z.pow_pos_nonneg; lia).
      assert (M : (Z.pos m * 2 ^ Z.pos p <= 9007199254740992 * 65536)%Z)
        by (apply Z.mul_le_mono_nonneg; lia).
      destruct (Z.leb_spec 1000000000000000000000 (Z.pos m * 2 ^ Z.pos p));
        [exfalso; lia|reflexivity].
    + assert (Q0 : (1 <= 2 ^ Z.pos p)%Z)
        by (change 1%Z with (2 ^ 0)%Z; apply Z.pow_le_mono_r; lia).
      assert (M : (1000000000000000000000 * 1
                   <= 1000000000000000000000 * 2 ^ Z.pos p)%Z)
        by (apply Z.mul_le_mono_nonneg_l; lia).
      destruct (Z.leb_spec (1000000000000000000000 * 2 ^ Z.pos p) (Z.pos m));
        [exfalso; lia|reflexivity].
Qed.
Lemma range_gt (m : positive) (e : Z) :
  (4503599627370496 <= Z.pos m)%Z -> (17 < e)%Z ->
  at_least_1e21 m e = true.
Proof.
  intros N' E. unfold at_least_1e21.
  change (10 ^ 21)%Z with 1000000000000000000000%Z.
  destruct e as [|p|p]; try (exfalso; lia).
    assert (Q : (2 ^ 18 <= 2 ^ Z.pos p)%Z) by (apply Z.pow_le_mono_r; lia).
    change (2 ^ 18)%Z with 262144%Z in Q.
    assert (M : (4503599627370496 * 262144 <= Z.pos m * 2 ^ Z.pos p)%Z)
      by (apply Z.mul_le_mono_nonneg; lia).
    destruct (Z.leb_spec 1000000000000000000000 (Z.pos m * 2 ^ Z.pos p));
      [reflexivity|exfalso; lia].
Qed.

Lemma range_test (s : bool) (m : positive) (e : Z) :
  valid_binary (S754_finite s m e) = true ->
  negb (at_least_1e21 m e)
  = SFltb (S754_finite false m e) (S754_finite false 7629394531250000 17).
Proof.
  intros V. destruct (valid_finite_bounds _ _ _ V) as [U [L N]].
  unfold SFltb, SFcompare.
  destruct (Z.compare_spec e 17) as [E|E|E].
  - subst e. rewrite Pos.compare_cont_spec. unfold Pos.switch_Eq, at_least_1e21.
    change (10 ^ 21)%Z with 1000000000000000000000%Z.
    change (2 ^ Z.pos 17)%Z with 131072%Z.
    destruct (Pos.compare_spec m 7629394531250000) as [F|F|F].
    + subst m. reflexivity.
    + apply Pos2Z.pos_lt_pos in F.
      destruct (Z.leb_spec 1000000000000000000000 (Z.pos m * 131072));
        [exfalso; lia|reflexivity].
    + apply Pos2Z.pos_lt_pos in F.
      destruct (Z.leb_spec 1000000000000000000000 (Z.pos m * 131072));
        [reflexivity|exfalso; lia].
  - now rewrite range_lt.
  - rewrite range_gt; [reflexivity|apply N; lia|exact E].
Qed.

Lemma below_1e21_ltb (x : float) :
  below_1e21 x = PrimFloat.ltb (abs x) 1e21.
Proof.
  rewrite ltb_spec, abs_spec, Prim2SF_1e21. unfold below_1e21.
  pose proof (Prim2SF_valid x) as V.
  destruct (Prim2SF x) as [s|s| |s m e]; [reflexivity|reflexivity|reflexivity|].
  now apply (range_test s).
Qed.

Lemma binary_round_aux_nonpos m e l :
  (0 <= m)%Z -> nonpos_sf (binary_round_aux prec emax true m e l) = true.
Proof.
  intros H. unfold binary_round_aux.
  pose proof (shr_fexp_nonneg m e l H) as H1.
  destruct (shr_fexp prec emax m e l) as [mrs' e'] eqn:E1. simpl in H1.
  pose proof (shr_fexp_nonneg _ e' loc_Exact
                (round_nearest_even_nonneg _ (loc_of_shr_record mrs') H1)) as H2.
  destruct (shr_fexp prec emax (round_nearest_even _ _) e' loc_Exact)
    as [mrs'' e''] eqn:E2. simpl in H2.
  destruct (shr_m mrs''); try reflexivity; [|lia].
  now destruct (_ <=? _)%Z.
Qed.

Lemma binary_normalize_nonpos z e :
  (z <= 0)%Z -> nonpos_sf (binary_normalize prec emax z e false) = true.
Proof.
  intros H. destruct z as [|p|p]; simpl; [reflexivity|lia|].
  unfold binary_round.
  destruct (shl_align _ _ _) as [mz ez].
  apply binary_round_aux_nonpos. lia.
Qed.

Lemma leb_zero_nonpos (x : float) :
  PrimFloat.leb x 0 = nonpos_sf (Prim2SF x).
Proof.
  rewrite leb_spec. change (Prim2SF 0) with (S754_zero false).
  now destruct (Prim2SF x) as [s|s| |s m e]; try destruct s.
Qed.

Lemma float_sub_nonpos (x y : float) :
  is_finite x = true -> is_finite y = true ->
  PrimFloat.leb x y = true ->
  PrimFloat.leb (PrimFloat.sub x y) 0 = true.
Proof.
  intros Fx Fy L.
  rewrite leb_spec in L. rewrite leb_zero_nonpos, sub_spec.
  pose proof (Prim2SF_valid x) as Vx. pose proof (Prim2SF_valid y) as Vy.
  destruct (Prim2SF_finite_cases x Fx) as [[sx Ex]|[sx [mx [ex Ex]]]];
    destruct (Prim2SF_finite_cases y Fy) as [[sy Ey]|[sy [my [ey Ey]]]];
    rewrite Ex in *; rewrite Ey in *.
  - now destruct sx, sy.
  - destruct sy; [discriminate|reflexivity].
  - destruct sx; [reflexivity|discriminate].
  - unfold SF64sub, SFsub. apply binary_normalize_nonpos.
    pose proof (SFleb_aligned _ _ _ _ _ _ Vx Vy L) as A.
    rewrite Z.min_comm in A. lia.
Qed.

Lemma float_div_1000_nonpos (x : float) :
  PrimFloat.leb x 0 = true -> PrimFloat.leb (PrimFloat.div x 1000) 0 = true.
Proof.
  rewrite !leb_zero_nonpos, div_spec.
  change (Prim2SF 1000) with (S754_finite false 8796093022208000 (-43)).
  destruct (Prim2SF x) as [s|s| |s m e]; simpl; try discriminate;
    try (destruct s; simpl; congruence).
  intros H. subst s.
  unfold SF64div, SFdiv.
  pose proof (SFdiv_core_nonneg m e 8796093022208000 (-43)) as Q.
  destruct (SFdiv_core_binary _ _ _ _ _ _) as [[mz ez] lz]. simpl in Q.
  now apply binary_round_aux_nonpos.
Qed.

End FloatFacts.

(* ===================================================================== *)
(** * Further properties of the code *)
(* ===================================================================== *)

Module Extra.

Import JS Host Timing Runs Effects JSFacts RunFacts EffectFacts.
Import FormatFacts FloatFacts.
Local Open Scope js_scope.

Lemma falsy_iff (v : value) : falsy v <-> to_boolean v = false.
Proof.
  split.
  - intros [->|[x [-> [Hz|Hn]]]]; simpl; [reflexivity| |].
    + now rewrite Hz.
    + now rewrite Hn, orb_true_r.
  - destruct v as [|x]; [now left|]. simpl. intros H.
    apply negb_false_iff, orb_true_iff in H. right. eauto.
Qed.

Lemma interval_undefined_iff (h : Host.t) (start end_ : string) :
  interval h start end_ = Undefined
  <-> to_boolean (mark h start) = false \/ to_boolean (mark h end_) = false.
Proof.
  unfold interval, and_.
  destruct (to_boolean (mark h start)) eqn:E0; simpl.
  - destruct (to_boolean (mark h end_)) eqn:E1.
    + split; [discriminate|intros [H|H]; discriminate].
    + split; auto.
  - rewrite E0. split; auto.
Qed.

Lemma external_value_undefined_iff (h : Host.t) :
  external_value h = Undefined
  <-> interval h "domLoading" "domComplete" = Undefined
      \/ interval h "domLoading" "domInteractive" = Undefined.
Proof.
  unfold external_value.
  destruct (interval h "domLoading" "domComplete") as [|d];
    destruct (interval h "domLoading" "domInteractive") as [|p]; simpl;
    split; auto; try discriminate.
  intros [H|H]; discriminate.
Qed.



Lemma mark_table (h : Host.t) p table key :
  window_performance h = Some p -> performance_timing p = Some table ->
  mark h key = table key.
Proof. intros Ep Et. unfold mark. now rewrite Ep, Et. Qed.

Lemma unchanged (h : Host.t) {A} (k : nat) (m : M A) a :
  lookup_warnings h k = [] -> writes h k m a -> forall w, m w = Return a w.
Proof.
  intros E H w. rewrite H, E, app_nil_r. now rewrite world_eta.
Qed.

Lemma lookup_warnings_silent (h : Host.t) (k : nat) :
  ready h = true \/ window_console h <> ConsoleWithWarn ->
  lookup_warnings h k = [].
Proof.
  intros [E|E]; [now apply lookup_warnings_loaded|].
  unfold lookup_warnings. destruct (window_console h); congruence.
Qed.

(** X1. A raw lookup never throws and reads no clock.  It returns undefined
    when the mark source is absent, and the table's own entry for the key
    when the source exists; it writes the not-loaded warning once when the
    source exists, the document is not complete and console.warn is there,
    and leaves the state as it found it when the document is complete or
    there is no console.warn. *)
Theorem get_lookup (h : Host.t) (key : string) :
  (timing_implemented h = false -> writes h 0 (get h key) Undefined)
  /\ (forall p table,
         window_performance h = Some p ->
         performance_timing p = Some table ->
         writes h 1 (get h key) (table key))
  /\ (ready h = true \/ window_console h <> ConsoleWithWarn ->
      forall w, exists v, get h key w = Return v w).
Proof.
  split; [|split].
  - intros E. rewrite <- (mark_not_implemented h key E).
    apply (writes_not_implemented h 1 0 _ _ E), get_writes.
  - intros p table Ep Et. rewrite <- (mark_table h p table key Ep Et).
    apply get_writes.
  - intros S w. exists (mark h key).
    apply (unchanged h 1); [now apply lookup_warnings_silent|apply get_writes].
Qed.


(** X3. The same-origin check stops at the first unload mark when that mark
    is zero: one lookup, and false.  Otherwise it makes the second lookup and
    returns whether unloadEventEnd differs from zero; since undefined is not
    zero, it returns true when the mark source is absent. *)
Theorem fromSameOrigin_short_circuit (h : Host.t) :
  (forall a : float,
      returns (get h "unloadEventStart") (Number a) ->
      is_zero a = true ->
      writes h 1 (fromSameOrigin h) false)
  /\ (forall a b : value,
         returns (get h "unloadEventStart") a ->
         returns (get h "unloadEventEnd") b ->
         strict_not_equal a (Number 0) = true ->
         writes h 2 (fromSameOrigin h) (strict_not_equal b (Number 0)))
  /\ (timing_implemented h = false -> returns (fromSameOrigin h) true).
Proof.
  split; [|split].
  - intros a Ha Hz. apply get_returns_inv in Ha.
    assert (E : strict_not_equal (mark h "unloadEventStart") (Number 0) = false).
    { rewrite <- Ha, strict_not_equal_zero. now rewrite Hz. }
    pose proof (fromSameOrigin_writes h) as W.
    unfold fromSameOrigin_lookups in W. now rewrite E in W.
  - intros a b Ha Hb Hne.
    apply get_returns_inv in Ha. apply get_returns_inv in Hb. subst a b.
    pose proof (fromSameOrigin_writes h) as W.
    unfold fromSameOrigin_lookups in W. now rewrite Hne in W.
  - intros E.
    eapply returns_eq; [apply fromSameOrigin_returns|].
    now rewrite !mark_not_implemented.
Qed.


(** X5. What the lookups and metrics return depends on window.performance
    alone: two hosts with the same window.performance, whatever their
    consoles, documents and clocks, get the same values from the raw lookup,
    the pairwise interval, the external-assets metric and the same-origin
    check, and the same report text. *)
Theorem values_depend_on_marks_only (h1 h2 : Host.t) :
  window_performance h1 = window_performance h2 ->
  (forall key v, returns (get h1 key) v -> returns (get h2 key) v)
  /\ (forall start end_ v,
         returns (timing h1 start end_) v -> returns (timing h2 start end_) v)
  /\ (forall v, returns (external h1) v -> returns (external h2) v)
  /\ (forall b, returns (fromSameOrigin h1) b -> returns (fromSameOrigin h2) b)
  /\ (forall text, returns (log h1) text -> returns (log h2) text).
Proof.
  intros E.
  assert (Hm : forall key, mark h1 key = mark h2 key)
    by (intros key; unfold mark; now rewrite E).
  assert (Hi : forall a b, interval h1 a b = interval h2 a b)
    by (intros a b; unfold interval; now rewrite !Hm).
  assert (He : external_value h1 = external_value h2)
    by (unfold external_value; now rewrite !Hi).
  split; [|split; [|split; [|split]]].
  - intros key v H. apply get_returns_inv in H. subst v.
    rewrite Hm. apply get_returns.
  - intros a b v H. apply timing_returns_inv in H. subst v.
    rewrite Hi. apply timing_returns.
  - intros v H. apply (returns_unique (external_returns h1)) in H. subst v.
    rewrite He. apply external_returns.
  - intros b H. apply (returns_unique (fromSameOrigin_returns h1)) in H.
    subst b. rewrite !Hm. apply fromSameOrigin_returns.
  - intros text H. apply (returns_unique (log_returns h1)) in H. subst text.
    rewrite He, !Hi. apply log_returns.
Qed.

(** X6. The pairwise interval returns undefined exactly when one of its two
    raw lookups is falsy, that is undefined, a zero or NaN; in every other
    case, whatever the order of the two marks, it returns a number. *)
Theorem timing_undefined_iff (h : Host.t) (start end_ : string) (t0 t1 : value) :
  returns (get h start) t0 ->
  returns (get h end_) t1 ->
  (returns (timing h start end_) Undefined <-> falsy t0 \/ falsy t1)
  /\ (~ (falsy t0 \/ falsy t1) ->
      exists x, returns (timing h start end_) (Number x)).
Proof.
  intros H0 H1.
  apply get_returns_inv in H0. apply get_returns_inv in H1. subst t0 t1.
  assert (I : interval h start end_ = Undefined
              <-> falsy (mark h start) \/ falsy (mark h end_)).
  { rewrite interval_undefined_iff, <- !falsy_iff. reflexivity. }
  split.
  - rewrite <- I. split.
    + intros H. now apply timing_returns_inv in H.
    + intros <-. apply timing_returns.
  - intros N. destruct (interval h start end_) as [|x] eqn:E.
    + exfalso. apply N, I. reflexivity.
    + exists x. rewrite <- E. apply timing_returns.
Qed.

(** X7. The external-assets metric is undefined exactly when one of the
    three marks domLoading, domInteractive and domComplete is falsy; with
    the three of them truthy it returns a number. *)
Theorem external_undefined_iff (h : Host.t) (loading interactive complete : value) :
  returns (get h "domLoading") loading ->
  returns (get h "domInteractive") interactive ->
  returns (get h "domComplete") complete ->
  (returns (external h) Undefined
   <-> falsy loading \/ falsy interactive \/ falsy complete)
  /\ (~ (falsy loading \/ falsy interactive \/ falsy complete) ->
      exists x, returns (external h) (Number x)).
Proof.
  intros Hl Hi Hc.
  apply get_returns_inv in Hl. apply get_returns_inv in Hi.
  apply get_returns_inv in Hc. subst.
  assert (I : external_value h = Undefined
              <-> falsy (mark h "domLoading") \/ falsy (mark h "domInteractive")
                  \/ falsy (mark h "domComplete")).
  { rewrite external_value_undefined_iff, !interval_undefined_iff,
            <- !falsy_iff. tauto. }
  split.
  - rewrite <- I. split.
    + intros H. now apply (returns_unique (external_returns h)) in H.
    + intros <-. apply external_returns.
  - intros N. destruct (external_value h) as [|x] eqn:E.
    + exfalso. apply N, I. reflexivity.
    + exists x. rewrite <- E. apply external_returns.
Qed.

(** What evaluating the module yields, part by part. *)
Lemma init_run (h : Host.t) (w : World) :
  exists st w',
    init h w = Return st w'
    /\ now_is_native st
       = match now_source h with DateNow => false | _ => true end
    /\ navigationType st
       = match window_performance h with
         | Some p =>
             match performance_navigation p with
             | Some nav =>
                 if known_navigation_code (navigation_type nav)
                 then Some "unknown" else None
             | None => None
             end
         | None => None
         end
    /\ redirects st
       = match window_performance h with
         | Some p =>
             match performance_navigation p with
             | Some nav => navigation_redirectCount nav
             | None => Undefined
             end
         | None => Undefined
         end
    /\ console_output w'
       = (console_output w
          ++ match window_console h with
             | ConsoleWithWarn => load_warnings h
             | _ => []
             end)%list
    /\ clock_reads w' = clock_reads w.
Proof.
  destruct h as [[[t n nw wk]|] c rs d];
    [destruct t, n as [[ty rc]|], nw, wk|]; destruct c;
    do 2 eexists; (split; [reflexivity|]);
    cbn; unfold known_navigation_code;
    repeat match goal with
           | |- context [strict_equal ?a ?b] => destruct (strict_equal a b)
           end;
    cbn; rewrite ?app_nil_r, <- ?app_assoc; repeat split; reflexivity.
Qed.

(** X8. Evaluating the module never throws and stores the navigation
    metadata it can read: without window.performance.navigation both the
    navigation type and the redirect count are undefined; with it, the
    redirect count is the host's, and the navigation type is 'unknown' when
    the host's code is 0, 1, 2 or 255 and undefined for any other code, so
    that 'navigation', 'reload' and 'history' are never stored. *)
Theorem init_navigation_metadata (h : Host.t) (w : World) :
  exists st w',
    init h w = Return st w'
    /\ (navigation_implemented h = false ->
        navigationType st = None /\ redirects st = Undefined)
    /\ (forall p nav,
           window_performance h = Some p ->
           performance_navigation p = Some nav ->
           redirects st = navigation_redirectCount nav
           /\ navigationType st
              = (if known_navigation_code (navigation_type nav)
                 then Some "unknown" else None))
    /\ navigationType st <> Some "navigation"
    /\ navigationType st <> Some "reload"
    /\ navigationType st <> Some "history".
Proof.
  destruct (init_run h w) as [st [w' [E [_ [T [R _]]]]]].
  exists st, w'. split; [exact E|].
  split; [|split].
  - unfold navigation_implemented, performance_implemented. rewrite T, R.
    destruct (window_performance h) as [p|]; [|now split].
    destruct (performance_navigation p); [discriminate|now split].
  - intros p nav Ep En. rewrite T, R, Ep, En. now split.
  - rewrite T.
    destruct (window_performance h) as [p|]; [|repeat split; discriminate].
    destruct (performance_navigation p) as [nav|];
      [|repeat split; discriminate].
    destruct (known_navigation_code _); repeat split; discriminate.
Qed.

(** X9. Evaluating the module reads no clock and writes at most three
    warnings, each naming a feature the host lacks: none without
    console.warn, none on a host that has window.performance with timing,
    navigation and a native clock, and on a host without window.performance
    the two lines about window.performance and about Date.now.  The stored
    now_is_native is true exactly when window.performance has a now or a
    webkitNow. *)
Theorem init_warnings (h : Host.t) (w : World) :
  exists st w' ws,
    init h w = Return st w'
    /\ clock_reads w' = clock_reads w
    /\ console_output w' = (console_output w ++ ws)%list
    /\ List.length ws <= 3
    /\ (window_console h <> ConsoleWithWarn -> ws = [])
    /\ (timing_implemented h = true ->
        navigation_implemented h = true ->
        now_is_native st = true -> ws = [])
    /\ (window_console h = ConsoleWithWarn ->
        window_performance h = None ->
        ws = [ "window.performance is not implement.";
               "window.performance.now is not implemented, using Date.now" ])
    /\ (now_is_native st = true
        <-> exists p, window_performance h = Some p
                      /\ (performance_now p <> None
                          \/ performance_webkitNow p <> None)).
Proof.
  destruct (init_run h w) as [st [w' [E [N [_ [_ [O C]]]]]]].
  exists st, w',
         (match window_console h with
          | ConsoleWithWarn => load_warnings h
          | _ => []
          end).
  split; [exact E|]. split; [exact C|]. split; [exact O|].
  rewrite N. clear E N O C.
  unfold timing_implemented, navigation_implemented, performance_implemented,
         load_warnings, now_source.
  destruct h as [[[t n nw wk]|] c rs d]; cbn;
    [destruct t, n, nw, wk|]; destruct c; cbn;
    repeat split;
    try lia; try congruence; try discriminate;
    try (intros [q [Hq [H|H]]]; injection Hq as <-; cbn in H; congruence);
    try (intros _; eexists; split; [reflexivity|cbn];
         (left; discriminate) || (right; discriminate));
    try (intros [q [Hq _]]; discriminate).
Qed.

Lemma now_run (h : Host.t) (w : World) :
  now h w = Return (clock_of h (clock_reads w))
                   (mkWorld (console_output w) (S (clock_reads w))).
Proof. unfold now, clock_of, read_clock. now destruct (now_source h). Qed.

(** X10. The clock the stopwatch reads: window.performance.now whenever the
    host has it, even beside a webkitNow; webkitNow when there is no now;
    Date.now only when window.performance is missing or has neither.  Each
    call takes one reading and writes nothing. *)
Theorem now_clock_priority (h : Host.t) (w : World) :
  (forall p c,
      window_performance h = Some p ->
      performance_now p = Some c ->
      now h w = Return (c (clock_reads w))
                       (mkWorld (console_output w) (S (clock_reads w))))
  /\ (forall p c,
         window_performance h = Some p ->
         performance_now p = None ->
         performance_webkitNow p = Some c ->
         now h w = Return (c (clock_reads w))
                          (mkWorld (console_output w) (S (clock_reads w))))
  /\ (window_performance h = None
      \/ (exists p, window_performance h = Some p
                    /\ performance_now p = None
                    /\ performance_webkitNow p = None) ->
      now h w = Return (Date_now h (clock_reads w))
                       (mkWorld (console_output w) (S (clock_reads w)))).
Proof.
  rewrite now_run. unfold clock_of, now_source.
  split; [|split].
  - intros p c Ep En. now rewrite Ep, En.
  - intros p c Ep En Ew. now rewrite Ep, En, Ew.
  - intros [E|[p [Ep [En Ew]]]]; [now rewrite E|now rewrite Ep, En, Ew].
Qed.

(** X11. The milliseconds stopwatch takes one reading, calls the block on
    the window when no binding is passed and on the binding otherwise, with
    the arguments that follow the binding, takes a second reading and
    returns the second minus the first.  When the block throws, the second
    reading is never taken and the exception leaves both stopwatches as the
    block threw it. *)
Theorem timeMS_run (h : Host.t) (Arg : Type)
    (block : binding Arg -> list Arg -> M unit) (rest : list Arg) (w : World) :
  (forall w2,
      block (binding_of rest) (tl rest)
            (mkWorld (console_output w) (S (clock_reads w)))
      = Return tt w2 ->
      timeMS h block rest w
      = Return (Number (PrimFloat.sub (clock_of h (clock_reads w2))
                                      (clock_of h (clock_reads w))))
               (mkWorld (console_output w2) (S (clock_reads w2))))
  /\ (forall e w2,
         block (binding_of rest) (tl rest)
               (mkWorld (console_output w) (S (clock_reads w)))
         = Throw e w2 ->
         timeMS h block rest w = Throw e w2
         /\ time h block rest w = Throw e w2).
Proof.
  split.
  - intros w2 E. unfold timeMS.
    rewrite (bind_Return _ (now_run h w)).
    fold (binding_of rest).
    rewrite (bind_Return _ E), (bind_Return _ (now_run h w2)).
    reflexivity.
  - intros e w2 E.
    assert (T : timeMS h block rest w = Throw e w2).
    { unfold timeMS.
      rewrite (bind_Return _ (now_run h w)).
      fold (binding_of rest).
      now rewrite (bind_Throw _ E). }
    split; [exact T|]. unfold time. now rewrite (bind_Throw _ T).
Qed.

(** X12. With a clock whose readings are finite and never decrease, a
    block that returns, and did not turn the count of readings back, gets a
    duration of zero or more from both stopwatches: the milliseconds one
    returns the later reading minus the earlier, the seconds one that
    difference divided by 1000. *)
Theorem stopwatch_nonnegative (h : Host.t) (Arg : Type)
    (block : binding Arg -> list Arg -> M unit) (rest : list Arg)
    (w w2 : World) :
  (forall i, is_finite (clock_of h i) = true) ->
  (forall i j, i <= j ->
               PrimFloat.leb (clock_of h i) (clock_of h j) = true) ->
  block (binding_of rest) (tl rest)
        (mkWorld (console_output w) (S (clock_reads w)))
  = Return tt w2 ->
  clock_reads w <= clock_reads w2 ->
  exists ms w',
    timeMS h block rest w = Return (Number ms) w'
    /\ PrimFloat.leb 0 ms = true
    /\ time h block rest w = Return (Number (PrimFloat.div ms 1000)) w'
    /\ PrimFloat.leb 0 (PrimFloat.div ms 1000) = true.
Proof.
  intros Hfin Hmono Hblock Hreads.
  assert (T : timeMS h block rest w
              = Return (Number (PrimFloat.sub (clock_of h (clock_reads w2))
                                              (clock_of h (clock_reads w))))
                       (mkWorld (console_output w2) (S (clock_reads w2)))).
  { unfold timeMS.
    rewrite (bind_Return _ (now_run h w)).
    fold (binding_of rest).
    now rewrite (bind_Return _ Hblock), (bind_Return _ (now_run h w2)). }
  assert (P : PrimFloat.leb 0 (PrimFloat.sub (clock_of h (clock_reads w2))
                                             (clock_of h (clock_reads w)))
              = true)
    by (apply float_sub_nonneg; auto).
  do 2 eexists. split; [exact T|]. split; [exact P|]. split.
  - unfold time. now rewrite (bind_Return _ T).
  - now apply float_div_1000_nonneg.
Qed.

Lemma read_decimal_zeros (k : nat) (s : string) :
  read_decimal (zeros k ++ s) = read_decimal s.
Proof.
  induction k as [|k IH]; [reflexivity|].
  simpl. unfold read_decimal in *. simpl.
  destruct (NilEmpty.uint_of_string (zeros k ++ s)) as [d|];
    destruct (NilEmpty.uint_of_string s) as [d'|]; simpl in *; congruence.
Qed.

Lemma read_decimal_decimal (n : N) : read_decimal (decimal n) = Some n.
Proof.
  unfold read_decimal, decimal, NilZero.string_of_uint.
  rewrite <- (DecimalN.Unsigned.of_to n) at 2.
  destruct (N.to_uint n) eqn:E; try reflexivity;
    now rewrite <- E, NilEmpty.usu.
Qed.

(** The digits on both sides of the point read back as the integer. *)
Lemma fixed_digits_reads_back (n : N) (f : nat) :
  exists whole frac : string,
    fixed_digits n (S f) = whole ++ "." ++ frac
    /\ whole <> ""
    /\ all_digits whole = true
    /\ all_digits frac = true
    /\ String.length frac = S f
    /\ read_decimal (whole ++ frac) = Some n.
Proof.
  unfold fixed_digits.
  set (m := if Nat.leb (String.length (decimal n)) (S f)
            then zeros (S f + 1 - String.length (decimal n)) ++ decimal n
            else decimal n).
  assert (Hd : all_digits m = true).
  { unfold m. destruct (Nat.leb _ _).
    - now rewrite all_digits_append, all_digits_zeros, all_digits_decimal.
    - apply all_digits_decimal. }
  assert (Hl : S (S f) <= String.length m).
  { pose proof (length_decimal n) as L1.
    unfold m. destruct (Nat.leb _ _) eqn:E.
    - apply Nat.leb_le in E. rewrite length_append, length_zeros. lia.
    - apply Nat.leb_gt in E. lia. }
  assert (Hr : read_decimal m = Some n).
  { unfold m. destruct (Nat.leb _ _).
    - rewrite read_decimal_zeros. apply read_decimal_decimal.
    - apply read_decimal_decimal. }
  exists (substring 0 (String.length m - S f) m),
         (substring (String.length m - S f) (S f) m).
  split; [reflexivity|].
  split; [|split; [|split; [|split]]].
  - intros E.
    assert (L : String.length (substring 0 (String.length m - S f) m)
                = String.length m - S f) by (apply length_substring; lia).
    rewrite E in L. simpl in L. lia.
  - now apply all_digits_substring.
  - now apply all_digits_substring.
  - apply length_substring. lia.
  - pose proof (substring_split m (String.length m - S f) ltac:(lia)) as Sp.
    replace (String.length m - (String.length m - S f)) with (S f) in Sp
      by lia.
    now rewrite <- Sp.
Qed.

Lemma scaled_nearest_thousandths (m : positive) (e : Z) :
  ((0 <= e)%Z ->
   Z.of_N (scaled_nearest m e 3) = (Z.pos m * 2 ^ e * 1000)%Z)
  /\ ((e < 0)%Z ->
      (2 * 1000 * Z.pos m - 2 ^ (- e)
       < 2 * Z.of_N (scaled_nearest m e 3) * 2 ^ (- e)
       <= 2 * 1000 * Z.pos m + 2 ^ (- e))%Z).
Proof.
  unfold scaled_nearest.
  change (10 ^ Z.of_nat 3)%Z with 1000%Z.
  destruct e as [|p|p]; cbv beta iota zeta;
    (split; [intros H|intros H]); try lia.
  change (- Z.neg p)%Z with (Z.pos p).
  assert (D : (0 < 2 ^ Z.pos p)%Z) by (apply Z.pow_pos_nonneg; lia).
  set (d := (2 ^ Z.pos p)%Z) in *.
  set (a := (2 * (Z.pos m * 1000) + d)%Z).
  assert (A : (0 <= a)%Z) by (unfold a; lia).
  pose proof (Z.mul_div_le a (2 * d) ltac:(lia)) as Lo.
  pose proof (Z.mul_succ_div_gt a (2 * d) ltac:(lia)) as Hi.
  assert (Q : (0 <= a / (2 * d))%Z) by (apply Z.div_pos; lia).
  rewrite Z2N.id by exact Q.
  unfold a in *. lia.
Qed.

(** X13. A metric value below 10^21 in magnitude is printed to the nearest
    thousandth: [pp] writes an optional minus sign, at least one digit, a
    point, exactly three digits, 's' and a line feed, and the digits read
    back as the integer nearest to a thousand times the magnitude of the
    value, the larger one when the value lies half way. *)
Theorem pp_prints_nearest_thousandth (f : M value) (x : float) :
  returns f (Number x) ->
  PrimFloat.ltb (abs x) 1e21 = true ->
  exists (sign whole frac : string) (n : N),
    returns (pp f) (sign ++ whole ++ "." ++ frac ++ "s" ++ newline)
    /\ (sign = "" \/ sign = "-")
    /\ whole <> ""
    /\ all_digits whole = true
    /\ all_digits frac = true
    /\ String.length frac = 3
    /\ read_decimal (whole ++ frac) = Some n
    /\ nearest_thousandths x n.
Proof.
  intros Hf B. rewrite <- below_1e21_ltb in B.
  pose proof (pp_returns f (Number x) Hf) as P.
  unfold pp_line, toFixed in P. unfold below_1e21 in B.
  unfold nearest_thousandths.
  destruct (Prim2SF x) as [s| | |s m e]; try discriminate.
  - destruct (fixed_digits_reads_back 0 2)
      as [whole [frac [E [H1 [H2 [H3 [H4 H5]]]]]]].
    exists "", whole, frac, 0%N. rewrite E in P.
    split. { eapply returns_eq; [exact P|]. now rewrite !append_assoc. }
    split. { now left. }
    split; [exact H1|]. split; [exact H2|]. split; [exact H3|].
    split; [exact H4|]. split; [exact H5|]. reflexivity.
  - apply negb_true_iff in B. rewrite B in P.
    destruct (fixed_digits_reads_back (scaled_nearest m e 3) 2)
      as [whole [frac [E [H1 [H2 [H3 [H4 H5]]]]]]].
    exists (if s then "-" else ""), whole, frac, (scaled_nearest m e 3).
    rewrite E in P.
    split. { eapply returns_eq; [exact P|]. now rewrite !append_assoc. }
    split. { destruct s; auto. }
    split; [exact H1|]. split; [exact H2|]. split; [exact H3|].
    split; [exact H4|]. split; [exact H5|].
    apply scaled_nearest_thousandths.
Qed.

Lemma finite_not_nan (x : float) : is_finite x = true -> is_nan x = false.
Proof.
  unfold is_finite. intros H.
  apply negb_true_iff, orb_false_iff in H. tauto.
Qed.

(** X14. The sign of an interval follows the order of its marks: for two
    finite non-zero marks, the pairwise interval is zero or more when the
    end mark is not before the start mark, and zero or less when the end
    mark is not after it; rounding never turns the order around. *)
Theorem timing_sign_follows_order (h : Host.t) (start end_ : string)
    (t0 t1 : float) :
  returns (get h start) (Number t0) ->
  returns (get h end_) (Number t1) ->
  is_zero t0 = false -> is_zero t1 = false ->
  is_finite t0 = true -> is_finite t1 = true ->
  (PrimFloat.leb t0 t1 = true ->
   exists x, returns (timing h start end_) (Number x)
             /\ PrimFloat.leb 0 x = true)
  /\ (PrimFloat.leb t1 t0 = true ->
      exists x, returns (timing h start end_) (Number x)
                /\ PrimFloat.leb x 0 = true).
Proof.
  intros H0 H1 Z0 Z1 F0 F1.
  assert (R : returns (timing h start end_)
                      (Number (PrimFloat.div (PrimFloat.sub t1 t0) 1000))).
  { apply Spec.timing_of_truthy_marks; auto;
      apply to_boolean_number; auto using finite_not_nan. }
  split; intros L; eexists; (split; [exact R|]).
  - now apply float_div_1000_nonneg, float_sub_nonneg.
  - now apply float_div_1000_nonpos, float_sub_nonpos.
Qed.

(** X15. With both redirect marks set, finite and in the order of time
    (redirectStart not after redirectEnd), the redirect metric, which
    subtracts redirectEnd from redirectStart, returns a number that is zero
    or less: never a positive duration. *)
Theorem redirect_never_positive (h : Host.t) (rs re : float) :
  returns (get h "redirectStart") (Number rs) ->
  returns (get h "redirectEnd") (Number re) ->
  is_zero rs = false -> is_zero re = false ->
  is_finite rs = true -> is_finite re = true ->
  PrimFloat.leb rs re = true ->
  exists x, returns (redirect h) (Number x) /\ PrimFloat.leb x 0 = true.
Proof.
  intros Hs He Zs Ze Fs Fe L.
  exists (PrimFloat.div (PrimFloat.sub rs re) 1000). split.
  - unfold redirect. apply Spec.timing_of_truthy_marks; auto;
      apply to_boolean_number; auto using finite_not_nan.
  - now apply float_div_1000_nonpos, float_sub_nonpos.
Qed.


(** What the same-origin check returns for two number marks. *)
Lemma fromSameOrigin_value (h : Host.t) (a b : float) :
  returns (get h "unloadEventStart") (Number a) ->
  returns (get h "unloadEventEnd") (Number b) ->
  returns (fromSameOrigin h) (negb (is_zero a) && negb (is_zero b)).
Proof.
  intros Ha Hb.
  apply get_returns_inv in Ha. apply get_returns_inv in Hb.
  rewrite <- !strict_not_equal_zero, Ha, Hb.
  apply fromSameOrigin_returns.
Qed.

(** X21. The same-origin check tells whether the unload metric is
    available: when the two unload marks are numbers, not NaN, the check
    returns true exactly when the unload metric returns a number, and false
    exactly when the unload metric is undefined. *)
Theorem fromSameOrigin_tells_unload (h : Host.t) (a b : float) :
  returns (get h "unloadEventStart") (Number a) ->
  returns (get h "unloadEventEnd") (Number b) ->
  is_nan a = false -> is_nan b = false ->
  (returns (fromSameOrigin h) true
   <-> exists x, returns (unload h) (Number x))
  /\ (returns (fromSameOrigin h) false <-> returns (unload h) Undefined).
Proof.
  intros Ha Hb Na Nb.
  pose proof (fromSameOrigin_value h a b Ha Hb) as S.
  apply get_returns_inv in Ha. apply get_returns_inv in Hb.
  assert (I : interval h "unloadEventStart" "unloadEventEnd"
              = if negb (is_zero a) && negb (is_zero b)
                then Number (PrimFloat.div (PrimFloat.sub b a) 1000)
                else Undefined).
  { unfold interval, and_. rewrite <- Ha, <- Hb.
    destruct (is_zero a) eqn:Za, (is_zero b) eqn:Zb;
      simpl; rewrite ?Za, ?Zb, ?Na, ?Nb; simpl;
      rewrite ?Za, ?Zb, ?Na, ?Nb; reflexivity. }
  pose proof (timing_returns h "unloadEventStart" "unloadEventEnd") as U.
  fold (unload h) in U. rewrite I in U.
  destruct (negb (is_zero a) && negb (is_zero b)); split; split.
  - intros _. eexists. exact U.
  - intros _. exact S.
  - intros F. discriminate (returns_unique F S).
  - intros F. discriminate (returns_unique F U).
  - intros T. discriminate (returns_unique T S).
  - intros [x Hx]. discriminate (returns_unique Hx U).
  - intros _. exact U.
  - intros _. exact S.
Qed.

(** ** Witnesses *)

Lemma get_lookup_witness :
  writes loading_browser 1 (get loading_browser "fetchStart") (Number 100).
Proof.
  apply (proj1 (proj2 (get_lookup loading_browser "fetchStart"))
               _ scenario_marks eq_refl eq_refl).
Defined.


Lemma fromSameOrigin_short_circuit_witness :
  writes half_unloaded_browser 2 (fromSameOrigin half_unloaded_browser)
         (strict_not_equal (Number 0) (Number 0)).
Proof.
  apply (proj1 (proj2 (fromSameOrigin_short_circuit half_unloaded_browser))
               (Number 120) (Number 0)).
  - intros w. eexists. reflexivity.
  - intros w. eexists. reflexivity.
  - reflexivity.
Defined.


Lemma values_depend_on_marks_only_witness :
  (forall key v,
      returns (get loading_browser key) v ->
      returns (get silent_loading_browser key) v)
  /\ (forall start end_ v,
         returns (timing loading_browser start end_) v ->
         returns (timing silent_loading_browser start end_) v)
  /\ (forall v,
         returns (external loading_browser) v ->
         returns (external silent_loading_browser) v)
  /\ (forall b,
         returns (fromSameOrigin loading_browser) b ->
         returns (fromSameOrigin silent_loading_browser) b)
  /\ (forall text,
         returns (log loading_browser) text ->
         returns (log silent_loading_browser) text).
Proof.
  apply (values_depend_on_marks_only loading_browser silent_loading_browser).
  reflexivity.
Defined.

Lemma timing_undefined_iff_witness :
  (returns (timing no_redirect_browser "fetchStart" "redirectEnd") Undefined
   <-> falsy (Number 100) \/ falsy (Number 0))
  /\ (~ (falsy (Number 100) \/ falsy (Number 0)) ->
      exists x,
        returns (timing no_redirect_browser "fetchStart" "redirectEnd")
                (Number x)).
Proof.
  apply (timing_undefined_iff no_redirect_browser "fetchStart" "redirectEnd").
  - intros w. eexists. reflexivity.
  - intros w. eexists. reflexivity.
Defined.

Lemma external_undefined_iff_witness :
  (returns (external scenario_browser) Undefined
   <-> falsy (Number 350) \/ falsy (Number 500) \/ falsy (Number 700))
  /\ (~ (falsy (Number 350) \/ falsy (Number 500) \/ falsy (Number 700)) ->
      exists x, returns (external scenario_browser) (Number x)).
Proof.
  apply (external_undefined_iff scenario_browser).
  - intros w. eexists. reflexivity.
  - intros w. eexists. reflexivity.
  - intros w. eexists. reflexivity.
Defined.

Lemma init_navigation_metadata_witness :
  exists st w',
    init (navigating_browser 1) (mkWorld [] 0) = Return st w'
    /\ redirects st = Number 0
    /\ navigationType st = Some "unknown".
Proof.
  destruct (init_navigation_metadata (navigating_browser 1) (mkWorld [] 0))
    as [st [w' [E [_ [H _]]]]].
  exists st, w'. split; [exact E|].
  exact (H _ (mkNavigation (Number 1) (Number 0)) eq_refl eq_refl).
Defined.

Lemma init_warnings_witness :
  exists st w' ws,
    init legacy_browser (mkWorld [] 0) = Return st w'
    /\ console_output w' = ws
    /\ ws = [ "window.performance is not implement.";
              "window.performance.now is not implemented, using Date.now" ]
    /\ now_is_native st = false.
Proof.
  destruct (init_warnings legacy_browser (mkWorld [] 0))
    as [st [w' [ws [E [_ [O [_ [_ [_ [W N]]]]]]]]]].
  exists st, w', ws. split; [exact E|]. split; [exact O|].
  split; [exact (W eq_refl eq_refl)|].
  destruct (now_is_native st); [|reflexivity].
  destruct (proj1 N eq_refl) as [p [Hp _]]. discriminate Hp.
Defined.

Lemma now_clock_priority_witness :
  now stepping_browser (mkWorld [] 0) = Return 1000%float (mkWorld [] 1).
Proof.
  apply (proj1 (now_clock_priority stepping_browser (mkWorld [] 0))
               _ two_step_clock eq_refl eq_refl).
Defined.

Lemma timeMS_run_witness :
  timeMS stepping_browser (busy_block 3) [] (mkWorld [] 0)
  = Return (Number (PrimFloat.sub 1041 1000)) (mkWorld [] 5)
  /\ timeMS stepping_browser failing_block [Undefined] (mkWorld [] 0)
     = Throw (Raised Undefined) (mkWorld [] 1).
Proof.
  split.
  - apply (proj1 (timeMS_run stepping_browser value (busy_block 3) []
                             (mkWorld [] 0)) (mkWorld [] 4)).
    reflexivity.
  - apply (proj2 (timeMS_run stepping_browser value failing_block [Undefined]
                             (mkWorld [] 0)) (Raised Undefined) (mkWorld [] 1)).
    reflexivity.
Defined.

Lemma stopwatch_nonnegative_witness :
  exists ms w',
    timeMS stepping_browser (busy_block 3) [] (mkWorld [] 0)
    = Return (Number ms) w'
    /\ PrimFloat.leb 0 ms = true
    /\ time stepping_browser (busy_block 3) [] (mkWorld [] 0)
       = Return (Number (PrimFloat.div ms 1000)) w'
    /\ PrimFloat.leb 0 (PrimFloat.div ms 1000) = true.
Proof.
  apply (stopwatch_nonnegative stepping_browser value (busy_block 3) []
                               (mkWorld [] 0) (mkWorld [] 4)).
  - intros [|i]; reflexivity.
  - intros [|i] [|j] H; try reflexivity. lia.
  - reflexivity.
  - simpl. lia.
Defined.

Lemma pp_prints_nearest_thousandth_witness :
  exists (sign whole frac : string) (n : N),
    returns (pp (dns scenario_browser))
            (sign ++ whole ++ "." ++ frac ++ "s" ++ newline)
    /\ (sign = "" \/ sign = "-")
    /\ whole <> ""
    /\ all_digits whole = true
    /\ all_digits frac = true
    /\ String.length frac = 3
    /\ read_decimal (whole ++ frac) = Some n
    /\ nearest_thousandths 0.03 n.
Proof.
  apply (pp_prints_nearest_thousandth (dns scenario_browser) 0.03%float).
  - intros w. eexists. reflexivity.
  - reflexivity.
Defined.

Lemma timing_sign_follows_order_witness :
  (PrimFloat.leb 110 140 = true ->
   exists x,
     returns (timing scenario_browser "domainLookupStart" "domainLookupEnd")
             (Number x)
     /\ PrimFloat.leb 0 x = true)
  /\ (PrimFloat.leb 140 110 = true ->
      exists x,
        returns (timing scenario_browser "domainLookupStart" "domainLookupEnd")
                (Number x)
        /\ PrimFloat.leb x 0 = true).
Proof.
  apply (timing_sign_follows_order scenario_browser
           "domainLookupStart" "domainLookupEnd" 110 140).
  - intros w. eexists. reflexivity.
  - intros w. eexists. reflexivity.
  - reflexivity.
  - reflexivity.
  - reflexivity.
  - reflexivity.
Defined.

Lemma redirect_never_positive_witness :
  exists x,
    returns (redirect redirected_loading_browser) (Number x)
    /\ PrimFloat.leb x 0 = true.
Proof.
  apply (redirect_never_positive redirected_loading_browser 60 85).
  - intros w. eexists. reflexivity.
  - intros w. eexists. reflexivity.
  - reflexivity.
  - reflexivity.
  - reflexivity.
  - reflexivity.
  - reflexivity.
Defined.


Lemma fromSameOrigin_tells_unload_witness :
  (returns (fromSameOrigin half_unloaded_browser) true
   <-> exists x, returns (unload half_unloaded_browser) (Number x))
  /\ (returns (fromSameOrigin half_unloaded_browser) false
      <-> returns (unload half_unloaded_browser) Undefined).
Proof.
  apply (fromSameOrigin_tells_unload half_unloaded_browser 120 0).
  - intros w. eexists. reflexivity.
  - intros w. eexists. reflexivity.
  - reflexivity.
  - reflexivity.
Defined.

End Extra.
